(** * bloscpack.py: chunking planner, container header, pack and unpack

    A shallow embedding of [src/bloscpack.py]: [calculate_nchunks],
    [create_bloscpack_header], [decode_bloscpack_header],
    [decode_blosc_header], [pack_file] and [unpack_file].  Python integers
    are [Z]; Python 2 byte strings are [list Byte.byte]; exceptions are the
    [Err] side of a small error monad.  The block codec (python-blosc) is
    external: its [compress] and [decompress] are parameters, and its
    constant [blosc.BLOSC_MAX_BUFFERSIZE] is the argument [max_buffer]. *)

From Stdlib Require Import ZArith List Lia Bool.
From Stdlib Require Import Strings.Byte.
From Stdlib Require Import Strings.String Strings.Ascii QArith_base.
Import Corelib.Init.Datatypes List ListNotations.
Open Scope Z_scope.

(** ** Exceptions and the error monad *)

(** The Python exceptions raised on the paths we model. [SystemExit] is
    what [error(...)] raises through [sys.exit]. *)
Inductive error :=
| ValueError
| ChunkingException
| StructError
| IndexError
| IOError
| ZeroDivisionError
| SystemExit.

Inductive result (A : Type) :=
| Ok : A -> result A
| Err : error -> result A.
Arguments Ok {A} _.
Arguments Err {A} _.

Definition bind {A B} (m : result A) (k : A -> result B) : result B :=
  match m with
  | Ok a => k a
  | Err e => Err e
  end.

Notation "x <- m ;; k" := (bind m (fun x => k))
  (at level 61, m at next level, right associativity).
Notation "' p <- m ;; k" := (bind m (fun x => match x with p => k end))
  (at level 61, p pattern, m at next level, right associativity).

(** ** Module constants *)

Definition BLOSCPACK_HEADER_LENGTH : Z := 16.
Definition BLOSC_HEADER_LENGTH : Z := 16.
Definition FORMAT_VERSION : Z := 1.
Definition MAX_FORMAT_VERSION : Z := 255.
Definition MAX_CHUNKS : Z := 2 ^ 63 - 1.

(** The value of [blosc.BLOSC_MAX_BUFFERSIZE] in the Blosc 1.x C library
    ([INT_MAX - BLOSC_MAX_OVERHEAD]).  The planner takes the constant as an
    argument; this value is used to instantiate it at concrete inputs. *)
Definition BLOSC_MAX_BUFFERSIZE : Z := 2147483647 - 16.

(** [MAGIC = 'blpk'] *)
Definition MAGIC : list byte := [x62; x6c; x70; x6b].

(** ** Byte strings *)

Definition byte_of_Z (z : Z) : byte :=
  match Byte.of_N (Z.to_N (z mod 256)) with
  | Some b => b
  | None => x00
  end.

Definition Z_of_byte (b : byte) : Z := Z.of_N (Byte.to_N b).

(** [n] little-endian bytes of [z] (modulo [2^(8n)]). *)
Fixpoint le_bytes (n : nat) (z : Z) : list byte :=
  match n with
  | O => []
  | S n' => byte_of_Z z :: le_bytes n' (z / 256)
  end.

(** The unsigned little-endian value of a byte string. *)
Fixpoint le_value (bs : list byte) : Z :=
  match bs with
  | [] => 0
  | b :: bs' => Z_of_byte b + 256 * le_value bs'
  end.

(** Python slicing [s[i:j]] for [0 <= i <= j]. *)
Definition slice (i j : nat) (s : list byte) : list byte :=
  firstn (j - i) (skipn i s).

(** [struct.pack('<B', v)]: raises [struct.error] out of [0..255]. *)
Definition struct_pack_B (v : Z) : result (list byte) :=
  if (0 <=? v) && (v <=? 255) then Ok (le_bytes 1 v) else Err StructError.

(** [struct.pack('<q', v)] for [v] in the signed 64-bit range. *)
Definition struct_pack_q (v : Z) : result (list byte) :=
  if (- 2 ^ 63 <=? v) && (v <=? 2 ^ 63 - 1) then Ok (le_bytes 8 v)
  else Err StructError.

(** [struct.unpack('<I', s)[0]]: exactly four bytes. *)
Definition struct_unpack_I (s : list byte) : result Z :=
  if Nat.eqb (length s) 4 then Ok (le_value s) else Err StructError.

(** [struct.unpack('<q', s)[0]]: exactly eight bytes, two's complement. *)
Definition struct_unpack_q (s : list byte) : result Z :=
  if Nat.eqb (length s) 8 then
    let u := le_value s in
    Ok (if u <? 2 ^ 63 then u else u - 2 ^ 64)
  else Err StructError.

Definition bytes_eqb (s t : list byte) : bool :=
  (Nat.eqb (length s) (length t)) &&
  forallb (fun p => Byte.eqb (fst p) (snd p)) (combine s t).

(** ** The chunking planner: [calculate_nchunks] *)

(** [int(math.ceil(in_file_size / blosc.BLOSC_MAX_BUFFERSIZE))] under
    [from __future__ import division].  The float quotient is taken exact.
    For [0 <= a < 2^52] and [b >= 1] the rounding error of the double
    quotient is below [1/b], the distance from a non-integer quotient to the
    nearest integer, so its ceiling is the integer ceiling computed here.
    Above that the two can part: at [b = BLOSC_MAX_BUFFERSIZE] the float
    ceiling of [2^23 * b + 1] is [2^23], one less than this one.  The
    statements whose default-branch chunk count matters for large inputs
    are therefore stated below 2^52 bytes. *)
Definition ceil_div (a b : Z) : Z := - ((- a) / b).

(** The three branches of [calculate_nchunks] before the common
    post-checks; [None] is Python's [None]. *)
Definition nchunks_branch (max_buffer in_file_size : Z)
    (nchunks chunk_size : option Z) : result (Z * Z * Z) :=
  match nchunks, chunk_size with
  | Some _, Some _ => Err ValueError
  | Some n, None =>
      if n >? in_file_size then Err ChunkingException
      else if n <=? 0 then Err ChunkingException
      else
        let quotient := in_file_size / n in
        let remainder := in_file_size mod n in
        if n =? 1 then Ok (n, 0, in_file_size)
        else if remainder =? 0 then Ok (n, quotient, quotient)
        else if n =? 2 then Ok (n, quotient, in_file_size - quotient)
        else
          let cs := in_file_size / (n - 1) in
          Ok (n, cs, in_file_size - cs * (n - 1))
  | None, Some cs =>
      if cs >? in_file_size then Err ChunkingException
      else if cs <=? 0 then Err ChunkingException
      else
        let quotient := in_file_size / cs in
        let remainder := in_file_size mod cs in
        if cs =? in_file_size then Ok (1, 0, in_file_size)
        else if remainder =? 0 then Ok (quotient, cs, cs)
        else Ok (quotient + 1, cs, remainder)
  | None, None =>
      let n := ceil_div in_file_size max_buffer in
      let quotient := in_file_size / max_buffer in
      if in_file_size =? max_buffer then Ok (1, 0, max_buffer)
      else if quotient =? 0 then Ok (n, 0, in_file_size)
      else Ok (n, max_buffer, in_file_size mod max_buffer)
  end.

Definition calculate_nchunks (max_buffer in_file_size : Z)
    (nchunks chunk_size : option Z) : result (Z * Z * Z) :=
  '(n, cs, lcs) <- nchunks_branch max_buffer in_file_size nchunks chunk_size ;;
  if (cs >? max_buffer) || (lcs >? max_buffer) then Err ChunkingException
  else if n >? MAX_CHUNKS then Err ChunkingException
  else Ok (n, cs, lcs).

(** ** The container header *)

(** [create_bloscpack_header(nchunks, format_version)]; [None] encodes as
    [-1]. *)
Definition create_bloscpack_header (nchunks : option Z) (format_version : Z)
    : result (list byte) :=
  _ <- match nchunks with
  | Some n => if (0 <=? n) && (n <=? MAX_CHUNKS) then Ok tt else Err ValueError
  | None => Ok tt
  end ;;
  v <- struct_pack_B format_version ;;
  c <- struct_pack_q (match nchunks with Some n => n | None => -1 end) ;;
  Ok (MAGIC ++ v ++ [x00; x00; x00] ++ c).

(** [decode_bloscpack_header(buffer_)], returning
    [(nchunks, format_version)]. *)
Definition decode_bloscpack_header (buffer_ : list byte) : result (Z * Z) :=
  if negb (Nat.eqb (length buffer_) 16) then Err ValueError
  else if negb (bytes_eqb (slice 0 4 buffer_) MAGIC) then Err ValueError
  else
    n <- struct_unpack_q (slice 8 16 buffer_) ;;
    v <- struct_unpack_I (slice 4 8 buffer_) ;;
    Ok (n, v).

(** ** The Blosc block header: [decode_blosc_header] *)

Record blosc_header := {
  version : Z; versionlz : Z; flags : Z; typesize : Z;
  nbytes : Z; blocksize : Z; ctbytes : Z }.

(** [buffer_[0]] .. [buffer_[3]] raise [IndexError] on a buffer shorter
    than four bytes; a short [uint32] slice makes [struct.unpack] raise. *)
Definition decode_blosc_header (buffer_ : list byte) : result blosc_header :=
  match buffer_ with
  | b0 :: b1 :: b2 :: b3 :: _ =>
      nb <- struct_unpack_I (slice 4 8 buffer_) ;;
      bs <- struct_unpack_I (slice 8 12 buffer_) ;;
      ct <- struct_unpack_I (slice 12 16 buffer_) ;;
      Ok {| version := Z_of_byte b0; versionlz := Z_of_byte b1;
            flags := Z_of_byte b2; typesize := Z_of_byte b3;
            nbytes := nb; blocksize := bs; ctbytes := ct |}
  | _ => Err IndexError
  end.

(** ** Files opened for reading *)

(** An open file: its contents and the current position. *)
Record rfile := { data : list byte; pos : nat }.

Definition open_rb (d : list byte) : rfile := {| data := d; pos := 0 |}.

(** [fp.read(n)]: at most [n] bytes from the position, fewer at end of
    file; a negative [n] reads to the end. *)
Definition fread (n : Z) (f : rfile) : list byte * rfile :=
  let rest := skipn (pos f) (data f) in
  let got := if n <? 0 then rest else firstn (Z.to_nat n) rest in
  (got, {| data := data f; pos := pos f + length got |}).

(** [fp.seek(off, 1)]: relative to the current position. *)
Definition fseek_cur (off : Z) (f : rfile) : result rfile :=
  let p := Z.of_nat (pos f) + off in
  if p <? 0 then Err IOError else Ok {| data := data f; pos := Z.to_nat p |}.

(** ** Packing and unpacking *)

(** The keyword arguments passed to [blosc.compress]. *)
Record blosc_args := { bl_typesize : Z; bl_clevel : Z; bl_shuffle : bool }.

Definition DEFAULT_BLOSC_ARGS : blosc_args :=
  {| bl_typesize := 4; bl_clevel := 7; bl_shuffle := true |}.

Section PackUnpack.

(** The external codec: [blosc.compress] and [blosc.decompress]. *)
Variable compress : list byte -> blosc_args -> list byte.
Variable decompress : list byte -> list byte.

(** The loop of [pack_file]: read each size in turn, compress what was
    read, write the result. *)
Fixpoint pack_chunks (args : blosc_args) (sizes : list Z) (f : rfile)
    : list byte :=
  match sizes with
  | [] => []
  | bytes_to_read :: sizes' =>
      let '(current_chunk, f') := fread bytes_to_read f in
      compress current_chunk args ++ pack_chunks args sizes' f'
  end.

(** [pack_file(in_file, out_file, blosc_args, nchunks, chunk_size)],
    returning the contents of [out_file].  [in_file_size] is the result of
    [path.getsize(in_file)] and [in_data] what [open(in_file, 'rb')] then
    reads: they agree unless the file changes in between.  The final
    [out_file_size/in_file_size] raises on an empty input. *)
Definition pack_file (max_buffer in_file_size : Z) (in_data : list byte)
    (args : blosc_args) (nchunks chunk_size : option Z) : result (list byte) :=
  '(n, cs, lcs) <- calculate_nchunks max_buffer in_file_size nchunks chunk_size ;;
  bloscpack_header <- create_bloscpack_header (Some n) FORMAT_VERSION ;;
  let out := bloscpack_header ++
    pack_chunks args (repeat cs (Z.to_nat (n - 1)) ++ [lcs]) (open_rb in_data) in
  if in_file_size =? 0 then Err ZeroDivisionError else Ok out.

(** The loop of [unpack_file]: [k] times, read the Blosc header, seek back
    over it, read [ctbytes] bytes and write their decompression. *)
Fixpoint unpack_chunks (k : nat) (f : rfile) : result (list byte) :=
  match k with
  | O => Ok []
  | S k' =>
      let '(blosc_header_raw, f1) := fread BLOSC_HEADER_LENGTH f in
      h <- decode_blosc_header blosc_header_raw ;;
      f2 <- fseek_cur (- BLOSC_HEADER_LENGTH) f1 ;;
      let '(compressed, f3) := fread (ctbytes h) f2 in
      rest <- unpack_chunks k' f3 ;;
      Ok (decompress compressed ++ rest)
  end.

(** [unpack_file(in_file, out_file)], returning the contents of
    [out_file].  [for i in range(nchunks)] runs [max(nchunks, 0)] times.
    The closing ratio divides by the input size, which is 16 or more once
    the header has decoded. *)
Definition unpack_file (in_data : list byte) : result (list byte) :=
  let '(bloscpack_header, f) := fread BLOSCPACK_HEADER_LENGTH (open_rb in_data) in
  '(nchunks, format_version) <- decode_bloscpack_header bloscpack_header ;;
  if negb (FORMAT_VERSION =? format_version) then Err SystemExit
  else unpack_chunks (Z.to_nat nchunks) f.

End PackUnpack.

(** ** A concrete codec

    Stores the data uncompressed behind a 16-byte Blosc header whose
    [ctbytes] field is the block length.  Used to run [pack_file] and
    [unpack_file] on concrete files. *)
Definition store_compress (src : list byte) (args : blosc_args) : list byte :=
  [x02; x01; x00; byte_of_Z (bl_typesize args)] ++
  le_bytes 4 (Z.of_nat (length src)) ++ le_bytes 4 (Z.of_nat (length src)) ++
  le_bytes 4 (Z.of_nat (length src) + 16) ++ src.

Definition store_decompress (c : list byte) : list byte := skipn 16 c.

(** The pieces [pack_file] reads from a stream, one per size. *)
Fixpoint split_sizes (sizes : list Z) (s : list byte) : list (list byte) :=
  match sizes with
  | [] => []
  | n :: sizes' =>
      firstn (Z.to_nat n) s :: split_sizes sizes' (skipn (Z.to_nat n) s)
  end.

(** ** The command-line layer

    The helpers around the core: size printing and parsing, verbosity,
    [error], the argument processors, the argparse option checks,
    [check_files], the checksum table, the help formatter and the two
    branches of [__main__].  Strings are [String.string] (Python 2 [str]);
    [+++] is string concatenation. *)

Infix "+++" := String.append (at level 60, right associativity).

(** Exceptions seen at this level: those of the core, [TypeError],
    [OverflowError], and [SystemExit] with its exit code. *)
Inductive exc :=
| Raise (e : error)
| TypeError
| OverflowError
| Exit (code : Z).

(** A computation that prints lines on stdout, then returns or raises. *)
Definition io (A : Type) : Type := (list string * (A + exc))%type.

Definition ret {A} (a : A) : io A := ([], inl a).
Definition raise {A} (e : exc) : io A := ([], inr e).
Definition print (s : string) : io unit := ([s], inl tt).

Definition bind_io {A B} (m : io A) (k : A -> io B) : io B :=
  match m with
  | (o, inl a) => let (o', r) := k a in (o ++ o', r)
  | (o, inr e) => (o, inr e)
  end.

Notation "x <~ m ;; k" := (bind_io m (fun x => k))
  (at level 61, m at next level, right associativity).
Notation "' p <~ m ;; k" := (bind_io m (fun x => match x with p => k end))
  (at level 61, p pattern, m at next level, right associativity).

(** [try: m except <catch>: h]. *)
Definition try_except {A} (m : io A) (catch : exc -> bool) (h : exc -> io A)
    : io A :=
  match m with
  | (o, inr e) => if catch e then let (o', r) := h e in (o ++ o', r) else m
  | _ => m
  end.

(** A core computation at this level.  The core's [SystemExit] is the one
    raised by [error(...)], whose exit code is 1. *)
Definition lift {A} (r : result A) : io A :=
  match r with
  | Ok a => ret a
  | Err SystemExit => raise (Exit 1)
  | Err e => raise (Raise e)
  end.

(** [str(n)] and ['%d' % n]. *)
Fixpoint digits (fuel : nat) (n : Z) (acc : string) : string :=
  match fuel with
  | O => acc
  | S f =>
      let acc' := String (Ascii.ascii_of_nat (48 + Z.to_nat (n mod 10))) acc in
      if n <? 10 then acc' else digits f (n / 10) acc'
  end.

Definition str_Z (z : Z) : string :=
  let fuel := S (Z.to_nat (Z.log2 (Z.abs z))) in
  if z <? 0 then "-"%string +++ digits fuel (- z) EmptyString
  else digits fuel z EmptyString.

Definition EXTENSION : string := ".blp".
Definition NORMAL : string := "NORMAL".
Definition VERBOSE : string := "VERBOSE".
Definition DEBUG : string := "DEBUG".
Definition VERBOSITY_LEVELS : list string := [NORMAL; VERBOSE; DEBUG].
Definition DEFAULT_CHUNK_SIZE : string := "1M".

(** [SUFFIXES], a dict, as its list of items. *)
Definition SUFFIXES : list (string * Z) :=
  [("B"%string, 1); ("K"%string, 2 ^ 10); ("M"%string, 2 ^ 20);
   ("G"%string, 2 ^ 30); ("T"%string, 2 ^ 40)].

(** [d[k]] on a dict given by its items; [None] is a [KeyError]. *)
Fixpoint dict_get {A} (k : string) (d : list (string * A)) : option A :=
  match d with
  | [] => None
  | (k', v) :: d' => if String.eqb k k' then Some v else dict_get k d'
  end.

(** [l.index(x)]; [None] is the [ValueError] of a missing element. *)
Fixpoint list_index (x : string) (l : list string) : option nat :=
  match l with
  | [] => None
  | y :: l' => if String.eqb x y then Some 0%nat else option_map S (list_index x l')
  end.

(** [print_verbose(message, level)] under the globals [PREFIX] and
    [LEVEL]. *)
Definition print_verbose (PREFIX LEVEL : string) (message level : string)
    : io unit :=
  match list_index level VERBOSITY_LEVELS with
  | None => raise TypeError
  | Some i =>
      match list_index LEVEL VERBOSITY_LEVELS with
      | None => raise (Raise ValueError)
      | Some j =>
          if Nat.leb i j then print (PREFIX +++ ": "%string +++ message)
          else ret tt
      end
  end.

Definition newline : Ascii.ascii := Ascii.ascii_of_nat 10.

(** [s.split('\n')]. *)
Fixpoint split_nl (s : string) : list string :=
  match s with
  | EmptyString => [EmptyString]
  | String c s' =>
      let r := split_nl s' in
      if Ascii.eqb c newline then EmptyString :: r
      else match r with
           | l :: ls => String c l :: ls
           | [] => [String c EmptyString]
           end
  end.

(** [error(message, exit_code)]: one line per non-empty line of the
    message, then [sys.exit(exit_code)]. *)
Definition error_ {A} (PREFIX message : string) (exit_code : Z) : io A :=
  (map (fun l => PREFIX +++ ": error: "%string +++ l)
       (filter (fun l => negb (String.eqb l EmptyString)) (split_nl message)),
   inr (Exit exit_code)).

(** [sorted(items, key=lambda x: x[1])], an insertion sort (stable). *)
Fixpoint insert_by_snd (x : string * Z) (l : list (string * Z))
    : list (string * Z) :=
  match l with
  | [] => [x]
  | y :: l' => if snd y <=? snd x then y :: insert_by_snd x l' else x :: l
  end.

Fixpoint sort_by_snd (l : list (string * Z)) : list (string * Z) :=
  match l with
  | [] => []
  | x :: l' => insert_by_snd x (sort_by_snd l')
  end.

Section PrettySize.

(** [str(round(size_in_bytes / lim, 2))]: float formatting, external to
    the model. *)
Variable str_round_div : Z -> Z -> string.

Fixpoint pretty_loop (size_in_bytes : Z) (items : list (string * Z))
    : option string :=
  match items with
  | [] => None
  | (suf, lim) :: items' =>
      if size_in_bytes <? lim then pretty_loop size_in_bytes items'
      else Some (str_round_div size_in_bytes lim +++ suf)
  end.

(** [pretty_size(size_in_bytes)]; [None] when the loop falls through. *)
Definition pretty_size (size_in_bytes : Z) : option string :=
  pretty_loop size_in_bytes (rev (sort_by_snd SUFFIXES)).

End PrettySize.

(** A Python float: finite (a dyadic rational), infinite, or NaN. *)
Inductive pyfloat := Fin (q : Q) | Inf (neg : bool) | NaN.

(** The largest finite double. *)
Definition DBL_MAX : Z := (2 ^ 53 - 1) * 2 ^ 971.

(** [f * m] for a power of two [m >= 1]: exact while finite, infinite
    beyond [DBL_MAX]. *)
Definition float_mul_pow2 (f : pyfloat) (m : Z) : pyfloat :=
  match f with
  | Fin q =>
      let n := Qnum q * m in
      if DBL_MAX * Zpos (Qden q) <? Z.abs n then Inf (n <? 0)
      else Fin (Qmake n (Qden q))
  | Inf b => Inf b
  | NaN => NaN
  end.

(** [int(f)]: truncation toward zero. *)
Definition int_of_float (f : pyfloat) : io Z :=
  match f with
  | Fin q => ret (Z.quot (Qnum q) (Zpos (Qden q)))
  | Inf _ => raise OverflowError
  | NaN => raise (Raise ValueError)
  end.

(** [s[-1]] and [s[:-1]]. *)
Definition last_char (s : string) : option string :=
  match String.length s with
  | O => None
  | S k => Some (substring k 1 s)
  end.

Definition drop_last (s : string) : string :=
  substring 0 (String.length s - 1) s.

(** [s.endswith(suf)] and [s[:-n]]. *)
Definition endswith (s suf : string) : bool :=
  Nat.leb (String.length suf) (String.length s) &&
  String.eqb (substring (String.length s - String.length suf)
                (String.length suf) s) suf.

Definition drop_end (n : nat) (s : string) : string :=
  substring 0 (String.length s - n) s.

(** The [argparse] namespace of the command line. *)
Record namespace := {
  ns_subcommand : string;
  ns_in_file : string;
  ns_out_file : option string;
  ns_nchunks : option Z;
  ns_chunk_size : option Z;
  ns_typesize : Z;
  ns_clevel : Z;
  ns_shuffle : bool;
  ns_force : bool;
  ns_no_check_extension : bool;
  ns_verbose : bool;
  ns_debug : bool }.

(** [process_compression_args(args)]. *)
Definition process_compression_args (args : namespace)
    : string * string * blosc_args :=
  let in_file := ns_in_file args in
  let out_file := match ns_out_file args with
                  | None => in_file +++ EXTENSION
                  | Some o => o
                  end in
  (in_file, out_file,
   {| bl_typesize := ns_typesize args; bl_clevel := ns_clevel args;
      bl_shuffle := ns_shuffle args |}).

(** [process_decompression_args(args)]. *)
Definition process_decompression_args (PREFIX : string) (args : namespace)
    : io (string * string) :=
  let in_file := ns_in_file args in
  if ns_no_check_extension args then
    match ns_out_file args with
    | None => error_ PREFIX "--no-check-extension requires use of <out_file>" 1
    | Some o => ret (in_file, o)
    end
  else if endswith in_file EXTENSION then
    ret (in_file, match ns_out_file args with
                  | None => drop_end (String.length EXTENSION) in_file
                  | Some o => o
                  end)
  else error_ PREFIX ("input file '"%string +++ in_file +++
                      "' does not end with '"%string +++ EXTENSION +++ "'"%string) 1.

(** The file system: the contents of each existing path. *)
Definition fsys : Type := string -> option (list byte).

Definition path_exists (fs : fsys) (p : string) : bool :=
  match fs p with Some _ => true | None => false end.

(** [open(p, 'wb')] followed by writes of [d]. *)
Definition write_file (fs : fsys) (p : string) (d : list byte) : fsys :=
  fun q => if String.eqb q p then Some d else fs q.

(** [open(p, 'rb').read()]; a missing file raises [IOError]. *)
Definition read_file (fs : fsys) (p : string) : io (list byte) :=
  match fs p with Some d => ret d | None => raise (Raise IOError) end.

(** [check_files(in_file, out_file, args)]. *)
Definition check_files (PREFIX LEVEL : string) (fs : fsys)
    (in_file out_file : string) (args : namespace) : io unit :=
  _ <~ (if negb (path_exists fs in_file) then
          error_ PREFIX ("input file '"%string +++ in_file +++
                         "' does not exist!"%string) 1
        else ret tt) ;;
  _ <~ (if path_exists fs out_file then
          if negb (ns_force args) then
            error_ PREFIX ("output file '"%string +++ out_file +++
                           "' exists!"%string) 1
          else print_verbose PREFIX LEVEL
                 ("overwriting existing file: "%string +++ out_file) VERBOSE
        else ret tt) ;;
  _ <~ print_verbose PREFIX LEVEL ("input file is: "%string +++ in_file) VERBOSE ;;
  print_verbose PREFIX LEVEL ("output file is: "%string +++ out_file) VERBOSE.

(** [struct.pack('<I', v)]. *)
Definition struct_pack_I (v : Z) : result (list byte) :=
  if (0 <=? v) && (v <=? 2 ^ 32 - 1) then Ok (le_bytes 4 v) else Err StructError.

(** A [Hash]: name, digest size and function. *)
Record Hash := { hname : string; hsize : Z; hfunction : list byte -> result (list byte) }.

(** [zlib_hash(func)] for a checksum [func] (Python 2's [zlib.crc32] and
    [zlib.adler32] may return negative values). *)
Definition zlib_hash (func : list byte -> Z) : Z * (list byte -> result (list byte)) :=
  (4, fun data => struct_pack_I (Z.land (func data) 4294967295)).

(** A [hashlib] constructor: [func(data).digest()] and
    [func().digest_size]. *)
Record hashlib_fn := { digest : list byte -> list byte; digest_size : Z }.

Definition hashlib_hash (func : hashlib_fn) : Z * (list byte -> result (list byte)) :=
  (digest_size func, fun data => Ok (digest func data)).

Definition mkHash (name : string) (p : Z * (list byte -> result (list byte))) : Hash :=
  {| hname := name; hsize := fst p; hfunction := snd p |}.

Section Checksums.

Variables adler32 crc32 : list byte -> Z.
Variables md5 sha1 sha224 sha256 sha384 sha512 : hashlib_fn.

Definition CHECKSUMS : list Hash :=
  [{| hname := "None"; hsize := 0; hfunction := fun _ => Ok [] |};
   mkHash "adler32" (zlib_hash adler32);
   mkHash "crc32" (zlib_hash crc32);
   mkHash "md5" (hashlib_hash md5);
   mkHash "sha1" (hashlib_hash sha1);
   mkHash "sha224" (hashlib_hash sha224);
   mkHash "sha256" (hashlib_hash sha256);
   mkHash "sha384" (hashlib_hash sha384);
   mkHash "sha512" (hashlib_hash sha512)].

Definition CHECKSUMS_AVAIL : list string := map hname CHECKSUMS.

(** [CHECKSUMS_LOOKUP[name]]: [dict] of the pairs keeps the last value
    given for a key. *)
Definition CHECKSUMS_LOOKUP (name : string) : option Hash :=
  dict_get name (rev (map (fun c => (hname c, c)) CHECKSUMS)).

End Checksums.

Definition DEFAULT_CHECKSUM : string := "adler32".

(** Python values met by the help formatter, with Python's [==]
    ([True == 1], [False == 0]). *)
Inductive pyval := PyNone | PyBool (b : bool) | PyInt (z : Z) | PyStr (s : string).

Definition py_eq (a b : pyval) : bool :=
  match a, b with
  | PyNone, PyNone => true
  | PyBool x, PyBool y => Bool.eqb x y
  | PyInt x, PyInt y => x =? y
  | PyBool x, PyInt y | PyInt y, PyBool x => (if x then 1 else 0) =? y
  | PyStr x, PyStr y => String.eqb x y
  | _, _ => false
  end.

(** [x in l] for a list. *)
Definition py_in (x : pyval) (l : list pyval) : bool := existsb (py_eq x) l.

(** [sub in s] for strings. *)
Fixpoint str_contains (s sub : string) : bool :=
  String.prefix sub s ||
  match s with
  | EmptyString => false
  | String _ s' => str_contains s' sub
  end.

Definition SUPPRESS : pyval := PyStr "==SUPPRESS==".
Definition OPTIONAL : pyval := PyStr "?".
Definition ZERO_OR_MORE : pyval := PyStr "*".

(** The fields of an [argparse.Action] the formatter reads. *)
Record action := {
  act_help : string;
  act_default : pyval;
  act_option_strings : list string;
  act_nargs : pyval }.

(** [BloscPackCustomFormatter._get_help_string(action)]. *)
Definition get_help_string (a : action) : string :=
  let help_ := act_help a in
  if negb (str_contains (act_help a) "%(default)") &&
     negb (py_in (act_default a) [SUPPRESS; PyNone; PyBool true; PyBool false])
  then
    if (match act_option_strings a with [] => false | _ => true end) ||
       py_in (act_nargs a) [OPTIONAL; ZERO_OR_MORE]
    then help_ +++ " (default: %(default)s)"%string
    else help_
  else help_.

Section Cli.

(** [float(s)]: a float, or [None] for the [ValueError] of a string that
    does not parse. *)
Variable py_float : string -> option pyfloat.

(** The text of a caught exception ([e.message]), not tracked by the
    core model. *)
Variable exc_message : exc -> string.

(** [reverse_pretty(readable)]. *)
Definition reverse_pretty (readable : string) : io Z :=
  match last_char readable with
  | None => raise (Raise IndexError)
  | Some suffix =>
      match dict_get suffix SUFFIXES with
      | None => raise (Raise ValueError)
      | Some m =>
          match py_float (drop_last readable) with
          | None => raise (Raise ValueError)
          | Some f => int_of_float (float_mul_pow2 f m)
          end
      end
  end.

(** [CheckNchunksOption.__call__]: the value stored for [--nchunks]. *)
Definition check_nchunks_option (PREFIX option_string : string) (value : Z)
    : io Z :=
  if negb ((1 <=? value) && (value <=? MAX_CHUNKS)) then
    error_ PREFIX (option_string +++ " must be 1 <= n <= "%string +++
                   str_Z MAX_CHUNKS) 1
  else ret value.

(** [CheckChunkSizeOption.__call__]: the value stored for
    [--chunk-size]. *)
Definition check_chunk_size_option (PREFIX option_string value : string)
    : io Z :=
  v <~ try_except (reverse_pretty value)
         (fun e => match e with Raise ValueError => true | _ => false end)
         (fun e => error_ PREFIX (option_string +++ " error: "%string +++
                                  exc_message e) 1) ;;
  if v <? 0 then error_ PREFIX (option_string +++ " must be > 0 "%string) 1
  else ret v.

Variable compress : list byte -> blosc_args -> list byte.
Variable decompress : list byte -> list byte.
Variable max_buffer : Z.

(** The compress branch of [__main__], after argument parsing, with
    [LEVEL] and [PREFIX] set.  The [print_verbose] calls of the branch
    itself and [process_nthread_arg] (which sets the thread count of
    Blosc) are left out: they print and cannot raise.  On success the
    result is the file system with [out_file] written.  [pack_file] opens
    [out_file] for writing after [in_file] for reading, and takes the size
    of [in_file] before: when both name one file, the chunks are read from
    the truncated file.  A run that fails returns no file system: what it
    wrote before failing is not tracked. *)
Definition main_compress (PREFIX LEVEL : string) (args : namespace) (fs : fsys)
    : io fsys :=
  let '(in_file, out_file, blosc_args) := process_compression_args args in
  _ <~ check_files PREFIX LEVEL fs in_file out_file args ;;
  chunk_size <~ (match ns_nchunks args, ns_chunk_size args with
                 | None, None => v <~ reverse_pretty DEFAULT_CHUNK_SIZE ;; ret (Some v)
                 | _, cs => ret cs
                 end) ;;
  in_data <~ read_file fs in_file ;;
  let read_data := if String.eqb out_file in_file then [] else in_data in
  try_except
    (out <~ lift (pack_file compress max_buffer (Z.of_nat (length in_data)) read_data
                    blosc_args (ns_nchunks args) chunk_size) ;;
     ret (write_file fs out_file out))
    (fun e => match e with Raise ChunkingException => true | _ => false end)
    (fun e => error_ PREFIX (exc_message e) 1).

(** The decompress branch of [__main__], under the same conventions
    ([unpack_file] also opens [out_file] after [in_file]). *)
Definition main_decompress (PREFIX LEVEL : string) (args : namespace) (fs : fsys)
    : io fsys :=
  '(in_file, out_file) <~ process_decompression_args PREFIX args ;;
  _ <~ check_files PREFIX LEVEL fs in_file out_file args ;;
  in_data <~ read_file fs in_file ;;
  let read_data := if String.eqb out_file in_file then [] else in_data in
  try_except
    (out <~ lift (unpack_file decompress read_data) ;;
     ret (write_file fs out_file out))
    (fun e => match e with Raise ValueError => true | _ => false end)
    (fun e => error_ PREFIX (exc_message e) 1).

(** [__main__] after [parser.parse_args()]: [LEVEL] from the flags, then
    the branch named by the subcommand. *)
Definition main (PREFIX : string) (args : namespace) (fs : fsys) : io fsys :=
  let LEVEL := if ns_verbose args then VERBOSE
               else if ns_debug args then DEBUG else NORMAL in
  if existsb (String.eqb (ns_subcommand args)) ["compress"; "c"]%string then
    main_compress PREFIX LEVEL args fs
  else if existsb (String.eqb (ns_subcommand args)) ["decompress"; "d"]%string then
    main_decompress PREFIX LEVEL args fs
  else error_ PREFIX "You found the easter-egg, please contact the author" 1.

End Cli.

(** [message] with its newlines removed. *)
Fixpoint strip_nl (s : string) : string :=
  match s with
  | EmptyString => EmptyString
  | String c s' => if Ascii.eqb c newline then strip_nl s' else String c (strip_nl s')
  end.

Definition no_nl (l : string) : Prop := ~ In newline (list_ascii_of_string l).

(** ** The planner *)

(** Turn the boolean comparisons of the code into hypotheses, one branch
    at a time. *)
Ltac zbool :=
  repeat (match goal with
  | H : context [?a =? ?b] |- _ => destruct (Z.eqb_spec a b)
  | H : context [?a >? ?b] |- _ => destruct (Z.gtb_spec a b)
  | H : context [?a <=? ?b] |- _ => destruct (Z.leb_spec a b)
  | H : context [?a <? ?b] |- _ => destruct (Z.ltb_spec a b)
  | |- context [?a =? ?b] => destruct (Z.eqb_spec a b)
  | |- context [?a >? ?b] => destruct (Z.gtb_spec a b)
  | |- context [?a <=? ?b] => destruct (Z.leb_spec a b)
  | |- context [?a <? ?b] => destruct (Z.ltb_spec a b)
  end; cbn -[Z.eqb Z.gtb Z.leb Z.ltb Z.div Z.modulo Z.mul Z.add Z.sub Z.opp
             MAX_CHUNKS] in *).

(** For every quotient and remainder in sight, record the division
    equation and the bounds of the remainder. *)
Ltac divfact a b :=
  lazymatch goal with
  | _ : a = b * (a / b) + a mod b |- _ => fail
  | _ =>
      let Hb := fresh "Hb" in
      assert (Hb : 0 < b) by lia;
      pose proof (Z.div_mod a b ltac:(lia));
      pose proof (Z.mod_pos_bound a b Hb)
  end.

Ltac divfacts :=
  repeat match goal with
  | H : context [?a / ?b] |- _ => divfact a b
  | H : context [?a mod ?b] |- _ => divfact a b
  | |- context [?a / ?b] => divfact a b
  | |- context [?a mod ?b] => divfact a b
  end.

Lemma MAX_CHUNKS_eq : MAX_CHUNKS = 9223372036854775807.
Proof. reflexivity. Qed.

Section Planner.

Variable max_buffer : Z.
Hypothesis max_buffer_pos : 0 < max_buffer.

Lemma ceil_div_small a : 0 < a <= max_buffer -> ceil_div a max_buffer = 1.
Proof.
  intros H. unfold ceil_div.
  destruct (Z.eq_dec a max_buffer) as [->|Hne].
  - rewrite Z.div_opp_l_z by (rewrite ?Z_mod_same_full; lia).
    rewrite Z.div_same; lia.
  - rewrite Z.div_opp_l_nz by (rewrite ?Z.mod_small; lia).
    rewrite Z.div_small; lia.
Qed.

Lemma ceil_div_rem a : a mod max_buffer <> 0 ->
  ceil_div a max_buffer = a / max_buffer + 1.
Proof. intros H. unfold ceil_div. rewrite Z.div_opp_l_nz; lia. Qed.

Lemma ceil_div_exact k : ceil_div (k * max_buffer) max_buffer = k.
Proof.
  unfold ceil_div. rewrite <- Z.mul_opp_l, Z.div_mul; lia.
Qed.

(** C10: on an empty input with neither [nchunks] nor [chunk_size], the
    planner returns the plan [(0, 0, 0)] without raising: a plan with no
    chunk at all. *)
Theorem calculate_nchunks_empty_default :
  calculate_nchunks max_buffer 0 None None = Ok (0, 0, 0).
Proof.
  unfold calculate_nchunks, nchunks_branch, ceil_div.
  zbool; rewrite ?Z.opp_0, ?Z.div_0_l, ?MAX_CHUNKS_eq in * by lia;
    try lia; reflexivity.
Qed.

(** C9: with [3 <= nchunks <= in_file_size] and a remainder, the regular
    chunk size is [in_file_size // (nchunks - 1)] and the last chunk takes
    what is left, unless the post-checks reject the plan. *)
Theorem calculate_nchunks_count_remainder in_file_size n :
  3 <= n <= in_file_size ->
  in_file_size mod n <> 0 ->
  in_file_size / (n - 1) <= max_buffer ->
  in_file_size - in_file_size / (n - 1) * (n - 1) <= max_buffer ->
  n <= MAX_CHUNKS ->
  calculate_nchunks max_buffer in_file_size (Some n) None =
  Ok (n, in_file_size / (n - 1), in_file_size - in_file_size / (n - 1) * (n - 1)).
Proof.
  intros Hn Hr Hc Hl Hm.
  unfold calculate_nchunks, nchunks_branch.
  zbool; try lia; reflexivity.
Qed.

Lemma calculate_nchunks_default_multiple_plan k :
  2 <= k -> k <= MAX_CHUNKS ->
  calculate_nchunks max_buffer (k * max_buffer) None None = Ok (k, max_buffer, 0).
Proof.
  intros Hk Hm.
  unfold calculate_nchunks, nchunks_branch.
  rewrite ceil_div_exact, Z.div_mul, Z.mod_mul by lia.
  zbool; rewrite ?MAX_CHUNKS_eq in *; try nia; reflexivity.
Qed.

(** C3: with neither [nchunks] nor [chunk_size] and an input of exactly
    [k >= 2] times [BLOSC_MAX_BUFFERSIZE] bytes, the planner returns
    [(k, max_buffer, 0)]: [in_file_size % max_buffer] is taken as the last
    chunk size, so the chunks cover one buffer less than the input. *)
Theorem calculate_nchunks_default_multiple k :
  2 <= k -> k <= MAX_CHUNKS ->
  calculate_nchunks max_buffer (k * max_buffer) None None = Ok (k, max_buffer, 0)
  /\ max_buffer * (k - 1) + 0 <> k * max_buffer.
Proof.
  intros Hk Hm. split; [|nia].
  apply calculate_nchunks_default_multiple_plan; assumption.
Qed.

(** C2 (amended): every accepted plan for a non-empty input has
    [0 <= last_chunk_size <= max_buffer].  The last chunk is non-empty
    with [chunk_size] given, and with [nchunks] given when [nchunks <= 2]
    or [nchunks] divides the input; for [nchunks >= 3] with a remainder it
    is [in_file_size mod (nchunks - 1)], which may be 0.  With neither
    given it is non-empty unless the input is a multiple of [max_buffer]
    larger than [max_buffer], a case left out here. *)
Theorem calculate_nchunks_last_chunk_bounds in_file_size nchunks chunk_size
    n cs lcs :
  1 <= in_file_size ->
  calculate_nchunks max_buffer in_file_size nchunks chunk_size = Ok (n, cs, lcs) ->
  0 <= lcs <= max_buffer /\
  match nchunks, chunk_size with
  | Some k, None =>
      if (3 <=? k) && negb (in_file_size mod k =? 0)
      then lcs = in_file_size mod (k - 1)
      else 1 <= lcs
  | None, Some _ => 1 <= lcs
  | None, None =>
      in_file_size <= max_buffer \/ in_file_size mod max_buffer <> 0 -> 1 <= lcs
  | Some _, Some _ => True
  end.
Proof.
  intros Hin H. unfold calculate_nchunks, nchunks_branch in H.
  destruct nchunks as [k|], chunk_size as [c|]; revert H; zbool;
    intro Hok; try discriminate; injection Hok as <- <- <-;
    divfacts; try nia.
Qed.

(** C4 (amended): with neither [nchunks] nor [chunk_size] the planner is
    not the [chunk_size = max_buffer] planner: below [max_buffer] bytes it
    returns a single chunk (or no chunk for an empty input) where the
    other raises; at [max_buffer] bytes, and above it with a remainder,
    the two return the same plan, for inputs below 2^52 bytes, where the
    float ceiling of the default branch is the integer ceiling.  Exact
    multiples of [max_buffer] above it are left out here. *)
Theorem calculate_nchunks_default_vs_max_chunk_size in_file_size :
  0 <= in_file_size ->
  (in_file_size = 0 ->
     calculate_nchunks max_buffer in_file_size None None = Ok (0, 0, 0)) /\
  (1 <= in_file_size < max_buffer ->
     calculate_nchunks max_buffer in_file_size None None = Ok (1, 0, in_file_size)) /\
  (in_file_size < max_buffer ->
     calculate_nchunks max_buffer in_file_size None (Some max_buffer)
     = Err ChunkingException) /\
  (in_file_size < 2 ^ 52 ->
   in_file_size = max_buffer \/
   (max_buffer < in_file_size /\ in_file_size mod max_buffer <> 0) ->
     calculate_nchunks max_buffer in_file_size None None
     = calculate_nchunks max_buffer in_file_size None (Some max_buffer)).
Proof.
  intros H0. split; [|split; [|split]].
  - intros ->. unfold calculate_nchunks, nchunks_branch, ceil_div.
    zbool; rewrite ?Z.opp_0, ?Z.div_0_l, ?MAX_CHUNKS_eq in * by lia;
      try lia; reflexivity.
  - intros H. unfold calculate_nchunks, nchunks_branch.
    rewrite ceil_div_small, Z.div_small by lia.
    zbool; rewrite ?MAX_CHUNKS_eq in *; try lia; reflexivity.
  - intros H. unfold calculate_nchunks, nchunks_branch.
    zbool; try lia; reflexivity.
  - intros _ [->|[H1 H2]].
    + unfold calculate_nchunks, nchunks_branch. zbool; try lia; reflexivity.
    + unfold calculate_nchunks, nchunks_branch.
      rewrite ceil_div_rem by lia.
      zbool; divfacts; try nia; reflexivity.
Qed.

(** Outside the exact multiples of [max_buffer] above it with neither
    option given, an accepted plan for a non-empty input partitions it:
    [nchunks - 1] chunks of [chunk_size] and one of [last_chunk_size]. *)
Lemma calculate_nchunks_partition in_file_size nchunks chunk_size n cs lcs :
  1 <= in_file_size ->
  calculate_nchunks max_buffer in_file_size nchunks chunk_size = Ok (n, cs, lcs) ->
  ~ (nchunks = None /\ chunk_size = None /\
     max_buffer < in_file_size /\ in_file_size mod max_buffer = 0) ->
  1 <= n /\ 0 <= cs /\ 0 <= lcs /\ cs * (n - 1) + lcs = in_file_size.
Proof.
  intros Hin H Hx. unfold calculate_nchunks, nchunks_branch in H.
  destruct nchunks as [k|], chunk_size as [c|].
  - discriminate.
  - revert H; zbool; intro Hok; try discriminate; injection Hok as <- <- <-;
      divfacts; nia.
  - revert H; zbool; intro Hok; try discriminate; injection Hok as <- <- <-;
      divfacts; nia.
  - destruct (Z_lt_le_dec in_file_size max_buffer) as [Hs|Hs].
    + rewrite ceil_div_small in H by lia.
      revert H; zbool; intro Hok; try discriminate; injection Hok as <- <- <-;
        divfacts; nia.
    + destruct (Z.eq_dec in_file_size max_buffer) as [He|He].
      * revert H; zbool; intro Hok; try discriminate;
          injection Hok as <- <- <-; lia.
      * rewrite ceil_div_rem in H by (intro; apply Hx; repeat split; lia).
        revert H; zbool; intro Hok; try discriminate;
          injection Hok as <- <- <-; divfacts; nia.
Qed.

(** An accepted plan for a non-empty input has at least one chunk and
    respects the post-checks. *)
Lemma calculate_nchunks_bounds in_file_size nchunks chunk_size n cs lcs :
  1 <= in_file_size ->
  calculate_nchunks max_buffer in_file_size nchunks chunk_size = Ok (n, cs, lcs) ->
  1 <= n <= MAX_CHUNKS /\ 0 <= cs <= max_buffer /\ 0 <= lcs <= max_buffer.
Proof.
  intros Hin H. unfold calculate_nchunks, nchunks_branch, ceil_div in H.
  destruct nchunks as [k|], chunk_size as [c|]; revert H; zbool;
    intro Hok; try discriminate; injection Hok as <- <- <-;
    divfacts; nia.
Qed.

End Planner.

(** ** Little-endian integers and the container header *)

Lemma Z_of_byte_of_Z z : Z_of_byte (byte_of_Z z) = z mod 256.
Proof.
  unfold Z_of_byte, byte_of_Z.
  pose proof (Z.mod_pos_bound z 256 ltac:(lia)) as Hb.
  destruct (Byte.of_N (Z.to_N (z mod 256))) as [b|] eqn:E.
  - apply Byte.to_of_N in E. rewrite E. apply Z2N.id. lia.
  - apply Byte.of_N_None_iff in E. lia.
Qed.

Lemma le_bytes_length k z : length (le_bytes k z) = k.
Proof. revert z; induction k; intros z; simpl; auto. Qed.

Lemma le_value_le_bytes k z :
  le_value (le_bytes k z) = z mod 2 ^ (8 * Z.of_nat k).
Proof.
  revert z; induction k as [|k IH]; intros z.
  - simpl. rewrite Z.mod_1_r. reflexivity.
  - cbn [le_bytes le_value]. rewrite IH, Z_of_byte_of_Z.
    replace (8 * Z.of_nat (S k)) with (8 + 8 * Z.of_nat k) by lia.
    rewrite Z.pow_add_r by lia.
    set (P := 2 ^ (8 * Z.of_nat k)).
    assert (HP : 0 < P) by (apply Z.pow_pos_nonneg; lia).
    change (2 ^ 8) with 256.
    apply (Z.mod_unique z (256 * P) (z / 256 / P)).
    + pose proof (Z.mod_pos_bound z 256 ltac:(lia)).
      pose proof (Z.mod_pos_bound (z / 256) P HP). nia.
    + pose proof (Z.div_mod z 256 ltac:(lia)).
      pose proof (Z.div_mod (z / 256) P ltac:(lia)). nia.
Qed.

Lemma le_value_bound bs : 0 <= le_value bs < 2 ^ (8 * Z.of_nat (length bs)).
Proof.
  induction bs as [|b bs IH]; cbn [le_value].
  - simpl. lia.
  - unfold Z_of_byte. pose proof (Byte.to_N_bounded b).
    replace (8 * Z.of_nat (length (b :: bs))) with (8 + 8 * Z.of_nat (length bs))
      by (simpl length; lia).
    rewrite Z.pow_add_r by lia. change (2 ^ 8) with 256. lia.
Qed.

(** Decoding a header laid out as [create_bloscpack_header] lays it out. *)
Lemma decode_header_layout (v : byte) (c : list byte) :
  length c = 8%nat ->
  decode_bloscpack_header (MAGIC ++ [v; x00; x00; x00] ++ c)
  = Ok (let u := le_value c in if u <? 2 ^ 63 then u else u - 2 ^ 64,
        Z_of_byte v).
Proof.
  intros Hc.
  set (buf := MAGIC ++ [v; x00; x00; x00] ++ c).
  assert (Hlen : length buf = 16%nat)
    by (unfold buf; rewrite !length_app, Hc; reflexivity).
  assert (Hm : slice 0 4 buf = MAGIC) by reflexivity.
  assert (Hv : slice 4 8 buf = [v; x00; x00; x00]) by reflexivity.
  assert (Hn : slice 8 16 buf = c)
    by (unfold slice, buf; cbn [skipn MAGIC app]; apply firstn_all2; lia).
  assert (HM : bytes_eqb MAGIC MAGIC = true) by reflexivity.
  unfold decode_bloscpack_header. rewrite Hlen, Hm, Hv, Hn, HM.
  unfold struct_unpack_q, struct_unpack_I. rewrite Hc.
  cbn [Nat.eqb negb length bind]. do 2 f_equal.
  cbn [le_value]. change (Z_of_byte x00) with 0. lia.
Qed.

Lemma create_header_eq n v :
  0 <= n <= MAX_CHUNKS -> 0 <= v <= 255 ->
  create_bloscpack_header (Some n) v
  = Ok (MAGIC ++ [byte_of_Z v; x00; x00; x00] ++ le_bytes 8 n).
Proof.
  intros Hn Hv.
  unfold create_bloscpack_header, struct_pack_B, struct_pack_q.
  replace ((0 <=? n) && (n <=? MAX_CHUNKS)) with true
    by (symmetry; apply andb_true_iff; split; apply Z.leb_le; lia).
  replace ((0 <=? v) && (v <=? 255)) with true
    by (symmetry; apply andb_true_iff; split; apply Z.leb_le; lia).
  rewrite MAX_CHUNKS_eq in Hn.
  replace ((- 2 ^ 63 <=? n) && (n <=? 2 ^ 63 - 1)) with true
    by (symmetry; apply andb_true_iff; split; apply Z.leb_le; lia).
  reflexivity.
Qed.

Lemma decode_header_of n v :
  0 <= n <= MAX_CHUNKS -> 0 <= v <= 255 ->
  decode_bloscpack_header (MAGIC ++ [byte_of_Z v; x00; x00; x00] ++ le_bytes 8 n)
  = Ok (n, v).
Proof.
  intros Hn Hv. rewrite MAX_CHUNKS_eq in Hn.
  rewrite decode_header_layout by apply le_bytes_length.
  rewrite le_value_le_bytes, Z_of_byte_of_Z.
  change (8 * Z.of_nat 8) with 64.
  rewrite Z.mod_small by lia. rewrite (Z.mod_small v) by lia.
  cbv zeta. destruct (Z.ltb_spec n (2 ^ 63)); [reflexivity | lia].
Qed.

(** [decode_bloscpack_header] inverts [create_bloscpack_header] on its
    whole domain. *)
Lemma decode_create_header n v :
  0 <= n <= MAX_CHUNKS -> 0 <= v <= 255 ->
  (h <- create_bloscpack_header (Some n) v ;; decode_bloscpack_header h)
  = Ok (n, v).
Proof.
  intros Hn Hv. rewrite create_header_eq by assumption.
  apply decode_header_of; assumption.
Qed.

(** C8: the header round trip holds for [nchunks] in [{0, 1, 42, 2^63-1}]
    and [format_version] in [{0, 1, 255}]. *)
Theorem decode_create_header_samples n v :
  In n [0; 1; 42; 2 ^ 63 - 1] -> In v [0; 1; 255] ->
  (h <- create_bloscpack_header (Some n) v ;; decode_bloscpack_header h)
  = Ok (n, v).
Proof.
  intros Hn Hv. apply decode_create_header; rewrite ?MAX_CHUNKS_eq.
  - simpl in Hn. intuition (subst; lia).
  - simpl in Hv. intuition (subst; lia).
Qed.

(** C5: [decode_bloscpack_header] reads the version with [struct.unpack('<I',
    buffer_[4:8])], so the three reserved bytes are part of it: version
    byte 1 followed by reserved bytes [01 00 00] decodes as version 257. *)
Theorem decode_bloscpack_header_reserved :
  decode_bloscpack_header (MAGIC ++ [x01; x01; x00; x00] ++ repeat x00 8)
  = Ok (0, 257).
Proof. vm_compute. reflexivity. Qed.

(** ** Streams of blocks *)

Lemma skipn_length_app {A} (l1 l2 : list A) : skipn (length l1) (l1 ++ l2) = l2.
Proof. rewrite skipn_app, skipn_all, Nat.sub_diag. reflexivity. Qed.

Lemma firstn_prefix {A} n (l1 l2 : list A) :
  (n <= length l1)%nat -> firstn n (l1 ++ l2) = firstn n l1.
Proof.
  intros H. rewrite firstn_app.
  replace (n - length l1)%nat with 0%nat by lia. apply app_nil_r.
Qed.

Lemma skipn_firstn_length {A} n (l : list A) :
  skipn (length (firstn n l)) l = skipn n l.
Proof.
  rewrite length_firstn. destruct (Nat.le_ge_cases n (length l)).
  - rewrite Nat.min_l by lia. reflexivity.
  - rewrite Nat.min_r by lia. rewrite skipn_all, skipn_all2 by lia.
    reflexivity.
Qed.

Lemma firstn_add {A} n m (l : list A) :
  firstn (n + m) l = firstn n l ++ firstn m (skipn n l).
Proof.
  revert l; induction n as [|n IH]; intros [|x l]; simpl;
    rewrite ?firstn_nil; auto.
  f_equal. apply IH.
Qed.

Lemma list_sum_repeat x k : list_sum (repeat x k) = (k * x)%nat.
Proof. induction k as [|k IH]; simpl; lia. Qed.

Lemma split_sizes_length sizes s : length (split_sizes sizes s) = length sizes.
Proof.
  revert s; induction sizes as [|n sizes IH]; intros s; simpl; auto.
Qed.

Lemma concat_split_sizes sizes s :
  concat (split_sizes sizes s) = firstn (list_sum (map Z.to_nat sizes)) s.
Proof.
  revert s; induction sizes as [|n sizes IH]; intros s; simpl.
  - reflexivity.
  - rewrite IH, firstn_add. reflexivity.
Qed.

Lemma split_sizes_bound (m : Z) sizes s :
  0 <= m -> Forall (fun n => n <= m) sizes ->
  Forall (fun x => Z.of_nat (length x) <= m) (split_sizes sizes s).
Proof.
  intros Hm H. revert s; induction H as [|n sizes Hn H IH]; intros s; simpl.
  - constructor.
  - constructor; [|apply IH].
    rewrite length_firstn. lia.
Qed.

(** [fp.read(n)] inside a block starting at the current position. *)
Lemma fread_block pre c R n :
  (n <= length c)%nat ->
  fread (Z.of_nat n) {| data := pre ++ c ++ R; pos := length pre |}
  = (firstn n c, {| data := pre ++ c ++ R; pos := length pre + n |}).
Proof.
  intros H. unfold fread. cbn [data pos].
  rewrite skipn_length_app, Nat2Z.id.
  destruct (Z.ltb_spec (Z.of_nat n) 0); [lia|].
  rewrite firstn_prefix, length_firstn, Nat.min_l by lia. reflexivity.
Qed.

Lemma fseek_back d p :
  fseek_cur (- BLOSC_HEADER_LENGTH) {| data := d; pos := p + 16 |}
  = Ok {| data := d; pos := p |}.
Proof.
  unfold fseek_cur, BLOSC_HEADER_LENGTH. cbn [data pos].
  assert (E : Z.of_nat (p + 16) + - (16) = Z.of_nat p) by lia.
  rewrite E, Nat2Z.id.
  destruct (Z.ltb_spec (Z.of_nat p) 0); [lia | reflexivity].
Qed.

Lemma decode_blosc_header_length s h :
  decode_blosc_header s = Ok h -> (16 <= length s)%nat.
Proof.
  unfold decode_blosc_header.
  destruct s as [|b0 [|b1 [|b2 [|b3 s']]]]; try discriminate.
  set (l := b0 :: b1 :: b2 :: b3 :: s').
  unfold bind.
  destruct (struct_unpack_I (slice 4 8 l)); try discriminate.
  destruct (struct_unpack_I (slice 8 12 l)); try discriminate.
  destruct (struct_unpack_I (slice 12 16 l)) eqn:E; try discriminate.
  intros _. unfold struct_unpack_I in E.
  destruct (Nat.eqb_spec (length (slice 12 16 l)) 4); [|discriminate].
  unfold slice in *. rewrite length_firstn, length_skipn in *. lia.
Qed.

Lemma decode_bloscpack_header_length s r :
  decode_bloscpack_header s = Ok r -> length s = 16%nat.
Proof.
  unfold decode_bloscpack_header.
  destruct (Nat.eqb_spec (length s) 16); [auto | discriminate].
Qed.

Section Codec.

Variable compress : list byte -> blosc_args -> list byte.
Variable decompress : list byte -> list byte.
Variable max_buffer : Z.
Hypothesis max_buffer_pos : 0 < max_buffer.

(** The codec laws, for buffers within [BLOSC_MAX_BUFFERSIZE]:
    decompression inverts compression, and every compressed block starts
    with a Blosc header whose [ctbytes] is the length of the block. *)
Hypothesis decompress_compress : forall b a,
  Z.of_nat (length b) <= max_buffer -> decompress (compress b a) = b.
Hypothesis compress_ctbytes : forall b a,
  Z.of_nat (length b) <= max_buffer ->
  exists h, decode_blosc_header (firstn 16 (compress b a)) = Ok h /\
            ctbytes h = Z.of_nat (length (compress b a)).

(** [unpack_file]'s loop over blocks written back to back. *)
Lemma unpack_chunks_blocks a xs pre post :
  Forall (fun x => Z.of_nat (length x) <= max_buffer) xs ->
  unpack_chunks decompress (length xs)
    {| data := pre ++ concat (map (fun x => compress x a) xs) ++ post;
       pos := length pre |}
  = Ok (concat xs).
Proof.
  revert pre; induction xs as [|x xs IH]; intros pre Hf; [reflexivity|].
  inversion Hf as [|? ? Hx Hxs]; subst.
  destruct (compress_ctbytes x a Hx) as (h & Hh & Hct).
  pose proof (decode_blosc_header_length _ _ Hh) as Hl.
  rewrite length_firstn in Hl.
  set (c := compress x a) in *.
  set (R := concat (map (fun x0 => compress x0 a) xs) ++ post).
  replace (concat (map (fun x0 => compress x0 a) (x :: xs)) ++ post)
    with (c ++ R) by (cbn [map concat]; unfold R, c; rewrite app_assoc; reflexivity).
  cbn [length unpack_chunks].
  change BLOSC_HEADER_LENGTH with (Z.of_nat 16) at 1.
  rewrite fread_block by lia. cbn [bind].
  rewrite Hh. cbn [bind].
  rewrite fseek_back. cbn [bind].
  rewrite Hct, fread_block by lia. cbn [bind].
  unfold R. rewrite app_assoc, <- length_app, IH by assumption. cbn [bind].
  rewrite firstn_all. unfold c. rewrite decompress_compress by assumption.
  reflexivity.
Qed.

(** [pack_file]'s loop compresses the consecutive pieces of the stream. *)
Lemma pack_chunks_split args sizes d p :
  Forall (fun n => 0 <= n) sizes ->
  pack_chunks compress args sizes {| data := d; pos := p |}
  = concat (map (fun x => compress x args) (split_sizes sizes (skipn p d))).
Proof.
  intros H. revert p; induction H as [|n sizes Hn H IH]; intros p; [reflexivity|].
  cbn [pack_chunks split_sizes map concat]. unfold fread at 1. cbn [data pos].
  destruct (Z.ltb_spec n 0); [lia|].
  cbv beta iota zeta.
  rewrite IH. f_equal. do 3 f_equal.
  rewrite Nat.add_comm, <- skipn_skipn, skipn_firstn_length. reflexivity.
Qed.

Lemma pack_file_eq in_file_size in_data args nchunks chunk_size n cs lcs :
  1 <= in_file_size ->
  calculate_nchunks max_buffer in_file_size nchunks chunk_size = Ok (n, cs, lcs) ->
  pack_file compress max_buffer in_file_size in_data args nchunks chunk_size
  = Ok (MAGIC ++ [x01; x00; x00; x00] ++ le_bytes 8 n ++
        concat (map (fun x => compress x args)
          (split_sizes (repeat cs (Z.to_nat (n - 1)) ++ [lcs]) in_data))).
Proof.
  intros Hin Hp.
  destruct (calculate_nchunks_bounds max_buffer max_buffer_pos _ _ _ _ _ _ Hin Hp)
    as (Hn & Hc & Hl).
  unfold pack_file. rewrite Hp. cbn [bind].
  rewrite create_header_eq by (unfold FORMAT_VERSION; lia). cbn [bind].
  destruct (Z.eqb_spec in_file_size 0); [lia|].
  unfold open_rb. rewrite pack_chunks_split.
  - rewrite <- !app_assoc. reflexivity.
  - apply Forall_app. split.
    + apply Forall_forall. intros x Hx. apply repeat_spec in Hx. lia.
    + repeat constructor. lia.
Qed.

Lemma fread_start c R n :
  (n <= length c)%nat ->
  fread (Z.of_nat n) {| data := c ++ R; pos := 0 |}
  = (firstn n c, {| data := c ++ R; pos := n |}).
Proof. apply (fread_block [] c R n). Qed.

(** [unpack_file] on a header declaring [n] chunks followed by [n]
    blocks. *)
Lemma unpack_file_blocks a n xs :
  1 <= n <= MAX_CHUNKS -> length xs = Z.to_nat n ->
  Forall (fun x => Z.of_nat (length x) <= max_buffer) xs ->
  unpack_file decompress
    (MAGIC ++ [x01; x00; x00; x00] ++ le_bytes 8 n ++
     concat (map (fun x => compress x a) xs))
  = Ok (concat xs).
Proof.
  intros Hn Hlen Hf.
  set (hdr := MAGIC ++ [x01; x00; x00; x00] ++ le_bytes 8 n).
  set (Y := concat (map (fun x => compress x a) xs)).
  assert (Hh : length hdr = 16%nat)
    by (unfold hdr; rewrite !length_app, le_bytes_length; reflexivity).
  replace (MAGIC ++ [x01; x00; x00; x00] ++ le_bytes 8 n ++ Y) with (hdr ++ Y)
    by (unfold hdr; rewrite <- !app_assoc; reflexivity).
  unfold unpack_file, open_rb.
  change BLOSCPACK_HEADER_LENGTH with (Z.of_nat 16).
  rewrite fread_start by lia. cbn [bind].
  rewrite firstn_all2 by lia.
  assert (Hd : decode_bloscpack_header hdr = Ok (n, 1)).
  { unfold hdr. change x01 with (byte_of_Z 1).
    apply decode_header_of; lia. }
  rewrite Hd. cbn [bind negb FORMAT_VERSION Z.eqb Pos.eqb].
  rewrite <- Hlen, <- Hh. unfold Y.
  rewrite <- (app_nil_r (concat (map (fun x => compress x a) xs))).
  apply unpack_chunks_blocks. assumption.
Qed.

(** Packing then unpacking a file returns the prefix of it covered by the
    plan: [nchunks - 1] chunks of [chunk_size] and one of
    [last_chunk_size]. *)
Lemma pack_unpack in_file_size B args nchunks chunk_size n cs lcs :
  Z.of_nat (length B) = in_file_size -> 1 <= in_file_size ->
  calculate_nchunks max_buffer in_file_size nchunks chunk_size = Ok (n, cs, lcs) ->
  (p <- pack_file compress max_buffer in_file_size B args nchunks chunk_size ;;
   unpack_file decompress p)
  = Ok (firstn (Z.to_nat (n - 1) * Z.to_nat cs + Z.to_nat lcs) B).
Proof.
  intros HB Hin Hp.
  destruct (calculate_nchunks_bounds max_buffer max_buffer_pos _ _ _ _ _ _ Hin Hp)
    as (Hn & Hc & Hl).
  rewrite (pack_file_eq _ _ _ _ _ _ _ _ Hin Hp). cbn [bind].
  rewrite unpack_file_blocks.
  - rewrite concat_split_sizes, map_app, list_sum_app, map_repeat,
      list_sum_repeat. cbn [map list_sum fold_right].
    do 2 f_equal. lia.
  - assumption.
  - rewrite split_sizes_length, length_app, repeat_length. cbn [length]. lia.
  - apply split_sizes_bound; [lia|]. apply Forall_app. split.
    + apply Forall_forall. intros x Hx. apply repeat_spec in Hx. lia.
    + repeat constructor. lia.
Qed.

(** The round trip holds for every accepted plan outside the exact
    multiples of [max_buffer] above it with neither option given.  With
    neither option the chunk count comes from the float ceiling of
    [ceil_div], so that case is stated for inputs below 2^52 bytes. *)
Lemma pack_unpack_roundtrip in_file_size B args nchunks chunk_size n cs lcs :
  Z.of_nat (length B) = in_file_size -> 1 <= in_file_size ->
  (nchunks = None -> chunk_size = None -> in_file_size < 2 ^ 52) ->
  calculate_nchunks max_buffer in_file_size nchunks chunk_size = Ok (n, cs, lcs) ->
  ~ (nchunks = None /\ chunk_size = None /\
     max_buffer < in_file_size /\ in_file_size mod max_buffer = 0) ->
  (p <- pack_file compress max_buffer in_file_size B args nchunks chunk_size ;;
   unpack_file decompress p)
  = Ok B.
Proof.
  intros HB Hin _ Hp Hx.
  destruct (calculate_nchunks_partition max_buffer max_buffer_pos _ _ _ _ _ _ Hin Hp Hx)
    as (Hn & Hc & Hl & Hsum).
  rewrite (pack_unpack _ _ _ _ _ _ _ _ HB Hin Hp).
  rewrite firstn_all2; [reflexivity|].
  apply Nat2Z.inj_le. rewrite Nat2Z.inj_add, Nat2Z.inj_mul, !Z2Nat.id by lia.
  nia.
Qed.

(** C1 (code bug): with neither [nchunks] nor [chunk_size], a file of
    exactly [2 * BLOSC_MAX_BUFFERSIZE] bytes does not survive the round
    trip: the plan [(2, max_buffer, 0)] packs only the first buffer, and
    unpacking returns that first half. *)
Theorem pack_unpack_default_multiple B args :
  Z.of_nat (length B) = 2 * max_buffer ->
  (p <- pack_file compress max_buffer (2 * max_buffer) B args None None ;;
   unpack_file decompress p)
  = Ok (firstn (Z.to_nat max_buffer) B) /\
  firstn (Z.to_nat max_buffer) B <> B.
Proof.
  intros HB.
  assert (Hp : calculate_nchunks max_buffer (2 * max_buffer) None None
               = Ok (2, max_buffer, 0))
    by (apply calculate_nchunks_default_multiple_plan;
        [assumption | lia | rewrite MAX_CHUNKS_eq; lia]).
  split.
  - rewrite (pack_unpack _ _ _ _ _ _ _ _ HB ltac:(lia) Hp).
    do 2 f_equal. lia.
  - intros E. apply (f_equal (@length byte)) in E.
    rewrite length_firstn in E. lia.
Qed.

(** C6 (amended): [pack_file] never compares what [read] returns with the
    size it asked for.  Whenever the size reported by [path.getsize] is at
    least 1 and the planner accepts it, packing succeeds whatever the file
    then holds, and
    each chunk written is the compression of the bytes the read returned,
    fewer than asked (possibly none) once the file runs out. *)
Theorem pack_file_short_read in_file_size in_data args nchunks chunk_size
    n cs lcs :
  1 <= in_file_size ->
  calculate_nchunks max_buffer in_file_size nchunks chunk_size = Ok (n, cs, lcs) ->
  pack_file compress max_buffer in_file_size in_data args nchunks chunk_size
  = Ok (MAGIC ++ [x01; x00; x00; x00] ++ le_bytes 8 n ++
        concat (map (fun x => compress x args)
          (split_sizes (repeat cs (Z.to_nat (n - 1)) ++ [lcs]) in_data))).
Proof. intros Hin Hp. apply pack_file_eq; assumption. Qed.

(** C7 (amended): a negative [nchunks] is not rejected.  With format
    version 1, [for i in range(nchunks)] runs no iteration and
    [unpack_file] succeeds with an empty output, whatever follows the
    header. *)
Theorem unpack_file_negative_count hdr rest n :
  decode_bloscpack_header hdr = Ok (n, FORMAT_VERSION) -> n < 0 ->
  unpack_file decompress (hdr ++ rest) = Ok [].
Proof.
  intros Hd Hn.
  pose proof (decode_bloscpack_header_length _ _ Hd) as Hl.
  unfold unpack_file, open_rb.
  change BLOSCPACK_HEADER_LENGTH with (Z.of_nat 16).
  rewrite fread_start by lia. cbn [bind].
  rewrite firstn_all2 by lia. rewrite Hd. cbn [bind].
  replace (Z.to_nat n) with 0%nat by lia. reflexivity.
Qed.

End Codec.

(** ** The concrete codec is lawful *)

Lemma decode_blosc_header_layout b0 b1 b2 b3 u v w :
  length u = 4%nat -> length v = 4%nat -> length w = 4%nat ->
  decode_blosc_header ([b0; b1; b2; b3] ++ u ++ v ++ w)
  = Ok {| version := Z_of_byte b0; versionlz := Z_of_byte b1;
          flags := Z_of_byte b2; typesize := Z_of_byte b3;
          nbytes := le_value u; blocksize := le_value v;
          ctbytes := le_value w |}.
Proof.
  intros Hu Hv Hw.
  destruct u as [|u0 [|u1 [|u2 [|u3 [|]]]]]; try discriminate.
  destruct v as [|v0 [|v1 [|v2 [|v3 [|]]]]]; try discriminate.
  destruct w as [|w0 [|w1 [|w2 [|w3 [|]]]]]; try discriminate.
  reflexivity.
Qed.

Lemma store_decompress_compress b a :
  store_decompress (store_compress b a) = b.
Proof. reflexivity. Qed.

Lemma store_compress_ctbytes b a :
  Z.of_nat (length b) <= 2 ^ 31 ->
  exists h, decode_blosc_header (firstn 16 (store_compress b a)) = Ok h /\
            ctbytes h = Z.of_nat (length (store_compress b a)).
Proof.
  intros Hb. unfold store_compress.
  set (z := Z.of_nat (length b)).
  set (P := [x02; x01; x00; byte_of_Z (bl_typesize a)] ++
            le_bytes 4 z ++ le_bytes 4 z ++ le_bytes 4 (z + 16)).
  assert (HP : length P = 16%nat)
    by (unfold P; rewrite !length_app, !le_bytes_length; reflexivity).
  replace ([x02; x01; x00; byte_of_Z (bl_typesize a)] ++
           le_bytes 4 z ++ le_bytes 4 z ++ le_bytes 4 (z + 16) ++ b)
    with (P ++ b) by (unfold P; rewrite <- !app_assoc; reflexivity).
  rewrite firstn_prefix, firstn_all2 by lia.
  unfold P. rewrite decode_blosc_header_layout by apply le_bytes_length.
  eexists. split; [reflexivity|]. cbn [ctbytes].
  rewrite le_value_le_bytes. change (8 * Z.of_nat 4) with 32.
  rewrite <- !app_assoc, !length_app, !le_bytes_length.
  cbn [length]. rewrite Z.mod_small by lia. lia.
Qed.

(** ** Witnesses *)

Lemma calculate_nchunks_empty_default_witness :
  calculate_nchunks BLOSC_MAX_BUFFERSIZE 0 None None = Ok (0, 0, 0).
Proof.
  apply calculate_nchunks_empty_default. unfold BLOSC_MAX_BUFFERSIZE. lia.
Defined.

Lemma calculate_nchunks_count_remainder_witness :
  calculate_nchunks BLOSC_MAX_BUFFERSIZE 10 (Some 4) None
  = Ok (4, 10 / (4 - 1), 10 - 10 / (4 - 1) * (4 - 1)).
Proof.
  apply calculate_nchunks_count_remainder;
    unfold BLOSC_MAX_BUFFERSIZE; rewrite ?MAX_CHUNKS_eq;
    first [lia | vm_compute; discriminate | vm_compute; reflexivity].
Defined.

Lemma calculate_nchunks_default_multiple_witness :
  calculate_nchunks BLOSC_MAX_BUFFERSIZE (2 * BLOSC_MAX_BUFFERSIZE) None None
  = Ok (2, BLOSC_MAX_BUFFERSIZE, 0) /\
  BLOSC_MAX_BUFFERSIZE * (2 - 1) + 0 <> 2 * BLOSC_MAX_BUFFERSIZE.
Proof.
  apply calculate_nchunks_default_multiple;
    unfold BLOSC_MAX_BUFFERSIZE; rewrite ?MAX_CHUNKS_eq; lia.
Defined.

Lemma calculate_nchunks_last_chunk_bounds_witness :
  0 <= 0 <= BLOSC_MAX_BUFFERSIZE /\ 0 = 100 mod (3 - 1).
Proof.
  exact (calculate_nchunks_last_chunk_bounds BLOSC_MAX_BUFFERSIZE
           ltac:(unfold BLOSC_MAX_BUFFERSIZE; lia) 100 (Some 3) None 3 50 0
           ltac:(lia) ltac:(vm_compute; reflexivity)).
Defined.

Lemma calculate_nchunks_default_vs_max_chunk_size_witness :
  calculate_nchunks BLOSC_MAX_BUFFERSIZE (BLOSC_MAX_BUFFERSIZE + 5) None None
  = calculate_nchunks BLOSC_MAX_BUFFERSIZE (BLOSC_MAX_BUFFERSIZE + 5) None
      (Some BLOSC_MAX_BUFFERSIZE).
Proof.
  destruct (calculate_nchunks_default_vs_max_chunk_size BLOSC_MAX_BUFFERSIZE
              ltac:(unfold BLOSC_MAX_BUFFERSIZE; lia)
              (BLOSC_MAX_BUFFERSIZE + 5)
              ltac:(unfold BLOSC_MAX_BUFFERSIZE; lia)) as (_ & _ & _ & H).
  apply H; [unfold BLOSC_MAX_BUFFERSIZE; lia|].
  right. split; [unfold BLOSC_MAX_BUFFERSIZE; lia | vm_compute; discriminate].
Defined.

Lemma decode_create_header_samples_witness :
  (h <- create_bloscpack_header (Some (2 ^ 63 - 1)) 255 ;;
   decode_bloscpack_header h) = Ok (2 ^ 63 - 1, 255).
Proof.
  apply decode_create_header_samples.
  - do 3 right. left. reflexivity.
  - do 2 right. left. reflexivity.
Defined.

Lemma pack_unpack_default_multiple_witness :
  (p <- pack_file store_compress 10 (2 * 10) (repeat x61 20) DEFAULT_BLOSC_ARGS
          None None ;;
   unpack_file store_decompress p)
  = Ok (firstn (Z.to_nat 10) (repeat x61 20)) /\
  firstn (Z.to_nat 10) (repeat x61 20) <> repeat x61 20.
Proof.
  apply (pack_unpack_default_multiple store_compress store_decompress 10).
  - lia.
  - intros b a _. apply store_decompress_compress.
  - intros b a Hb. apply store_compress_ctbytes. lia.
  - reflexivity.
Defined.

Lemma pack_file_short_read_witness :
  pack_file store_compress BLOSC_MAX_BUFFERSIZE 4 [x61; x61] DEFAULT_BLOSC_ARGS
    None None
  = Ok (MAGIC ++ [x01; x00; x00; x00] ++ le_bytes 8 1 ++
        concat (map (fun x => store_compress x DEFAULT_BLOSC_ARGS)
          (split_sizes (repeat 0 (Z.to_nat (1 - 1)) ++ [4]) [x61; x61]))).
Proof.
  apply (pack_file_short_read store_compress BLOSC_MAX_BUFFERSIZE).
  - unfold BLOSC_MAX_BUFFERSIZE. lia.
  - lia.
  - vm_compute. reflexivity.
Defined.

Lemma unpack_file_negative_count_witness :
  unpack_file store_decompress
    ((MAGIC ++ [x01; x00; x00; x00] ++ repeat xff 8) ++ [x61]) = Ok [].
Proof.
  apply (unpack_file_negative_count store_decompress _ _ (-1)).
  - vm_compute. reflexivity.
  - lia.
Defined.

(** ** Counterexamples *)

(** C2: 100 bytes in 3 chunks give the plan [(3, 50, 0)]: an empty last
    chunk. *)
Lemma calculate_nchunks_last_chunk_zero :
  ~ (forall in_file_size nchunks chunk_size n cs lcs,
       1 <= in_file_size ->
       calculate_nchunks BLOSC_MAX_BUFFERSIZE in_file_size nchunks chunk_size
       = Ok (n, cs, lcs) ->
       1 <= lcs <= BLOSC_MAX_BUFFERSIZE).
Proof.
  intros H.
  assert (E : calculate_nchunks BLOSC_MAX_BUFFERSIZE 100 (Some 3) None
              = Ok (3, 50, 0)) by (vm_compute; reflexivity).
  specialize (H 100 _ _ _ _ _ ltac:(lia) E). lia.
Qed.

(** C4: on a 1024-byte input the default plan is one chunk, while
    [chunk_size = BLOSC_MAX_BUFFERSIZE] raises [ChunkingException]. *)
Lemma calculate_nchunks_default_small_input :
  calculate_nchunks BLOSC_MAX_BUFFERSIZE 1024 None None = Ok (1, 0, 1024) /\
  calculate_nchunks BLOSC_MAX_BUFFERSIZE 1024 None (Some BLOSC_MAX_BUFFERSIZE)
  = Err ChunkingException.
Proof. split; vm_compute; reflexivity. Qed.

(** C6: [path.getsize] reported 4 bytes but the file holds 2: packing
    succeeds and writes the compression of the 2 bytes read. *)
Lemma pack_file_shrunk_file :
  pack_file store_compress BLOSC_MAX_BUFFERSIZE 4 [x61; x61] DEFAULT_BLOSC_ARGS
    None None
  = Ok (MAGIC ++ [x01; x00; x00; x00] ++ le_bytes 8 1 ++
        store_compress [x61; x61] DEFAULT_BLOSC_ARGS).
Proof. vm_compute. reflexivity. Qed.

(** C7: a header declaring [-1] chunks decodes, and unpacking it
    succeeds with an empty output. *)
Lemma unpack_file_minus_one :
  decode_bloscpack_header (MAGIC ++ [x01; x00; x00; x00] ++ repeat xff 8)
  = Ok (-1, 1) /\
  unpack_file store_decompress (MAGIC ++ [x01; x00; x00; x00] ++ repeat xff 8)
  = Ok [].
Proof. split; vm_compute; reflexivity. Qed.
(** ** Further properties of the core *)

Lemma bytes_eqb_eq s t : bytes_eqb s t = true <-> s = t.
Proof.
  unfold bytes_eqb. rewrite andb_true_iff.
  revert t. induction s as [|a s IH]; intros [|b t]; cbn; try (split; [intros [? ?]; congruence | discriminate]).
  - split; auto.
  - rewrite andb_true_iff. split.
    + intros [Hl [Hab Hf]]. apply byte_dec_bl in Hab. subst.
      f_equal. apply IH. split; assumption.
    + intros E. injection E as <- <-.
      destruct (proj2 (IH s) eq_refl) as [Hl Hf].
      repeat split; auto. apply byte_dec_lb. reflexivity.
Qed.

(** A Blosc header shorter than 16 bytes: [buffer_[3]] raises
    [IndexError] below four bytes, a short [uint32] slice makes
    [struct.unpack] raise from four to fifteen. *)
Lemma decode_blosc_header_short s :
  (length s < 16)%nat ->
  decode_blosc_header s = Err (if Nat.ltb (length s) 4 then IndexError else StructError).
Proof.
  intros H.
  do 16 (destruct s as [|? s]; [reflexivity|]).
  cbn [length] in H. lia.
Qed.

Section PlannerMore.

Variable max_buffer : Z.
Hypothesis max_buffer_pos : 0 < max_buffer.

(** For a non-empty input, an accepted plan has between 1 and
    [MAX_CHUNKS] chunks, and its chunk size and last chunk size lie
    between 0 and the Blosc buffer limit. *)
Theorem calculate_nchunks_plan_sound in_file_size nchunks chunk_size n cs lcs :
  1 <= in_file_size ->
  calculate_nchunks max_buffer in_file_size nchunks chunk_size = Ok (n, cs, lcs) ->
  1 <= n <= MAX_CHUNKS /\ 0 <= cs <= max_buffer /\ 0 <= lcs <= max_buffer.
Proof.
  intros Hin H.
  destruct (calculate_nchunks_bounds max_buffer max_buffer_pos _ _ _ _ _ _ Hin H)
    as (B1 & B2 & B3).
  repeat split; lia.
Qed.

(** [calculate_nchunks] fails with [ValueError] when both options are
    given, and otherwise only with [ChunkingException]. *)
Theorem calculate_nchunks_error_kind in_file_size nchunks chunk_size e :
  calculate_nchunks max_buffer in_file_size nchunks chunk_size = Err e ->
  match nchunks, chunk_size with
  | Some _, Some _ => e = ValueError
  | _, _ => e = ChunkingException
  end.
Proof.
  unfold calculate_nchunks, nchunks_branch.
  destruct nchunks as [k|], chunk_size as [c|]; cbn [bind];
    [congruence| | |]; zbool; intro Herr; congruence.
Qed.

(** A chunk count or a chunk size larger than the input, or not positive,
    is rejected with [ChunkingException]. *)
Theorem calculate_nchunks_rejects in_file_size v :
  v > in_file_size \/ v <= 0 ->
  calculate_nchunks max_buffer in_file_size (Some v) None = Err ChunkingException /\
  calculate_nchunks max_buffer in_file_size None (Some v) = Err ChunkingException.
Proof.
  intros Hv. unfold calculate_nchunks, nchunks_branch.
  split; zbool; first [reflexivity | lia].
Qed.

(** With only a chunk count [k] given, an accepted plan has [k] chunks
    and [1 <= k <= in_file_size]; one chunk gets chunk size 0 and the
    whole input as last chunk; a [k] dividing the input gives [k] equal
    chunks; two chunks of an odd input are its floor half and the rest. *)
Theorem calculate_nchunks_nchunks_plan in_file_size k n cs lcs :
  calculate_nchunks max_buffer in_file_size (Some k) None = Ok (n, cs, lcs) ->
  n = k /\ 1 <= k <= in_file_size /\
  (k = 1 -> cs = 0 /\ lcs = in_file_size) /\
  (2 <= k -> in_file_size mod k = 0 -> cs = in_file_size / k /\ lcs = cs) /\
  (k = 2 -> in_file_size mod 2 <> 0 ->
   cs = in_file_size / 2 /\ lcs = in_file_size - cs).
Proof.
  unfold calculate_nchunks, nchunks_branch.
  zbool; intro Hok; try discriminate; injection Hok as <- <- <-;
    repeat split; intros; subst; try lia.
Qed.

(** With only a chunk size [c] given, an accepted plan is either one
    chunk holding the whole input ([c] equal to the input, chunk size 0),
    or [ceil(in_file_size / c)] chunks of size [c] with a last chunk of 1
    to [c] bytes, which together make up the input. *)
Theorem calculate_nchunks_chunk_size_plan in_file_size c n cs lcs :
  calculate_nchunks max_buffer in_file_size None (Some c) = Ok (n, cs, lcs) ->
  (c = in_file_size /\ n = 1 /\ cs = 0 /\ lcs = in_file_size) \/
  (1 <= c < in_file_size /\ cs = c /\ n = ceil_div in_file_size c /\
   1 <= lcs <= c /\ c * (n - 1) + lcs = in_file_size).
Proof.
  unfold calculate_nchunks, nchunks_branch.
  zbool; intro Hok; try discriminate; injection Hok as <- <- <-.
  all: try (left; lia).
  all: right; divfacts.
  - assert (E : ceil_div in_file_size c = in_file_size / c)
      by (unfold ceil_div; rewrite Z.div_opp_l_z by lia; lia).
    rewrite E. repeat split; nia.
  - rewrite (ceil_div_rem c ltac:(lia)) by lia.
    repeat split; nia.
Qed.

End PlannerMore.

(** [decode_blosc_header] raises [IndexError] below 4 bytes and
    [StructError] from 4 to 15 bytes; from 16 bytes on it reads only the
    first 16, always succeeds, and its three sizes are unsigned 32-bit
    values. *)
Theorem decode_blosc_header_by_length buffer_ :
  ((length buffer_ < 4)%nat -> decode_blosc_header buffer_ = Err IndexError) /\
  ((4 <= length buffer_ < 16)%nat -> decode_blosc_header buffer_ = Err StructError) /\
  ((16 <= length buffer_)%nat ->
   decode_blosc_header buffer_ = decode_blosc_header (firstn 16 buffer_) /\
   exists h, decode_blosc_header buffer_ = Ok h /\
     0 <= nbytes h < 2 ^ 32 /\ 0 <= blocksize h < 2 ^ 32 /\
     0 <= ctbytes h < 2 ^ 32).
Proof.
  split; [|split].
  - intros H. rewrite decode_blosc_header_short by lia.
    destruct (Nat.ltb_spec (length buffer_) 4); [reflexivity | lia].
  - intros H. rewrite decode_blosc_header_short by lia.
    destruct (Nat.ltb_spec (length buffer_) 4); [lia | reflexivity].
  - intros H.
    do 16 (destruct buffer_ as [|? buffer_]; [cbn [length] in H; lia|]).
    split; [reflexivity|].
    eexists. split; [reflexivity|]. cbn [nbytes blocksize ctbytes].
    match goal with
    | |- 0 <= le_value ?u < _ /\ 0 <= le_value ?v < _ /\ 0 <= le_value ?w < _ =>
        pose proof (le_value_bound u); pose proof (le_value_bound v);
        pose proof (le_value_bound w)
    end.
    unfold slice in *. cbn [firstn skipn Nat.sub length Z.of_nat] in *. lia.
Qed.

(** [decode_bloscpack_header] raises [ValueError] unless it is given
    exactly 16 bytes that start with the magic [blpk]; then it succeeds
    with a signed 64-bit chunk count and an unsigned 32-bit format
    version. *)
Theorem decode_bloscpack_header_cases buffer_ :
  (length buffer_ <> 16%nat \/ firstn 4 buffer_ <> MAGIC ->
   decode_bloscpack_header buffer_ = Err ValueError) /\
  (length buffer_ = 16%nat -> firstn 4 buffer_ = MAGIC ->
   exists n v, decode_bloscpack_header buffer_ = Ok (n, v) /\
     - 2 ^ 63 <= n < 2 ^ 63 /\ 0 <= v < 2 ^ 32).
Proof.
  split.
  - intros H. unfold decode_bloscpack_header.
    destruct (Nat.eqb_spec (length buffer_) 16) as [Hl|Hl]; [|reflexivity].
    destruct (bytes_eqb (slice 0 4 buffer_) MAGIC) eqn:Hm; [|reflexivity].
    apply bytes_eqb_eq in Hm. unfold slice in Hm. cbn [skipn Nat.sub] in Hm.
    destruct H; contradiction.
  - intros Hl Hm.
    do 16 (destruct buffer_ as [|? buffer_]; [discriminate|]).
    destruct buffer_; [|discriminate].
    cbn [firstn] in Hm. injection Hm as -> -> -> ->.
    eexists _, _. split; [reflexivity|].
    match goal with
    | |- context [le_value ?c <? _] => pose proof (le_value_bound c)
    end.
    match goal with
    | |- _ /\ 0 <= le_value ?u < _ => pose proof (le_value_bound u)
    end.
    unfold slice in *. cbn [firstn skipn Nat.sub length Z.of_nat] in *.
    match goal with
    | |- context [le_value ?c <? ?m] => destruct (Z.ltb_spec (le_value c) m)
    end; lia.
Qed.

(** [create_bloscpack_header] raises [ValueError] for a chunk count
    outside [[0, MAX_CHUNKS]] and [StructError] for a format version that
    does not fit in a byte; a header it returns has 16 bytes, starts with
    the magic, then the version byte and three zero bytes. *)
Theorem create_bloscpack_header_cases nchunks v :
  (forall n, nchunks = Some n -> ~ (0 <= n <= MAX_CHUNKS) ->
   create_bloscpack_header nchunks v = Err ValueError) /\
  ((forall n, nchunks = Some n -> 0 <= n <= MAX_CHUNKS) -> ~ (0 <= v <= 255) ->
   create_bloscpack_header nchunks v = Err StructError) /\
  (forall h, create_bloscpack_header nchunks v = Ok h ->
   length h = 16%nat /\ firstn 4 h = MAGIC /\
   slice 4 8 h = [byte_of_Z v; x00; x00; x00]).
Proof.
  unfold create_bloscpack_header, struct_pack_B, struct_pack_q.
  rewrite MAX_CHUNKS_eq.
  split; [|split].
  - intros n -> Hn. zbool; first [reflexivity | lia].
  - intros Hr Hv. destruct nchunks as [n|].
    + specialize (Hr n eq_refl). zbool; first [reflexivity | lia].
    + zbool; first [reflexivity | lia].
  - intros h. destruct nchunks as [n|]; zbool; intro Hok; try discriminate;
      injection Hok as <-; rewrite ?length_app, ?le_bytes_length;
      repeat split; reflexivity.
Qed.

(** Decoding a created header gives back the chunk count ([-1] for
    [None]) and the format version, for every valid count and one-byte
    version. *)
Theorem decode_create_header_any nchunks v :
  (forall n, nchunks = Some n -> 0 <= n <= MAX_CHUNKS) -> 0 <= v <= 255 ->
  (h <- create_bloscpack_header nchunks v ;; decode_bloscpack_header h)
  = Ok (match nchunks with Some n => n | None => -1 end, v).
Proof.
  intros Hn Hv. destruct nchunks as [n|].
  - apply decode_create_header; [apply Hn; reflexivity | assumption].
  - unfold create_bloscpack_header, struct_pack_B.
    replace ((0 <=? v) && (v <=? 255)) with true
      by (symmetry; apply andb_true_iff; split; apply Z.leb_le; lia).
    cbn [bind le_bytes].
    change (struct_pack_q (-1)) with (Ok (le_bytes 8 (-1))). cbn [bind].
    change (MAGIC ++ [byte_of_Z v] ++ [x00; x00; x00] ++ le_bytes 8 (-1))
      with (MAGIC ++ [byte_of_Z v; x00; x00; x00] ++ le_bytes 8 (-1)).
    rewrite decode_header_layout by apply le_bytes_length.
    rewrite Z_of_byte_of_Z, Z.mod_small by lia. reflexivity.
Qed.

Section PackMore.

Variable compress : list byte -> blosc_args -> list byte.
Variable decompress : list byte -> list byte.
Variable max_buffer : Z.
Hypothesis max_buffer_pos : 0 < max_buffer.

(** [pack_file] on an empty input always fails: [ValueError] with both
    options, [ChunkingException] with one, and with none the
    [ZeroDivisionError] of the final ratio. *)
Theorem pack_file_empty_input in_data args nchunks chunk_size :
  pack_file compress max_buffer 0 in_data args nchunks chunk_size
  = Err (match nchunks, chunk_size with
         | None, None => ZeroDivisionError
         | Some _, Some _ => ValueError
         | _, _ => ChunkingException
         end).
Proof.
  unfold pack_file, calculate_nchunks, nchunks_branch.
  destruct nchunks as [k|], chunk_size as [c|]; cbn [bind]; [reflexivity| | |].
  - zbool; first [reflexivity | lia].
  - zbool; first [reflexivity | lia].
  - unfold ceil_div. rewrite Z.opp_0, Z.div_0_l by lia.
    rewrite ?MAX_CHUNKS_eq. zbool; try lia; reflexivity.
Qed.

End PackMore.

(** [unpack_file] raises [ValueError] on an input shorter than the
    16-byte header, and exits when the header's format version is not
    [FORMAT_VERSION]. *)
Theorem unpack_file_header_errors decompress in_data hdr rest n v :
  ((length in_data < 16)%nat -> unpack_file decompress in_data = Err ValueError) /\
  (decode_bloscpack_header hdr = Ok (n, v) -> v <> FORMAT_VERSION ->
   unpack_file decompress (hdr ++ rest) = Err SystemExit).
Proof.
  split.
  - intros H. unfold unpack_file, open_rb, fread. cbn [skipn pos data].
    change (BLOSCPACK_HEADER_LENGTH <? 0) with false. cbn iota.
    rewrite firstn_all2 by (cbn; lia). cbn [bind].
    unfold decode_bloscpack_header.
    destruct (Nat.eqb_spec (length in_data) 16); [lia | reflexivity].
  - intros Hd Hv.
    pose proof (decode_bloscpack_header_length _ _ Hd) as Hl.
    unfold unpack_file, open_rb.
    change BLOSCPACK_HEADER_LENGTH with (Z.of_nat 16).
    rewrite fread_start by lia. cbn [bind].
    rewrite firstn_all2 by lia. rewrite Hd. cbn [bind].
    destruct (Z.eqb_spec FORMAT_VERSION v); [congruence | reflexivity].
Qed.

(** When a valid header announces at least one chunk but fewer than 16
    bytes follow it, [unpack_file] fails on the first Blosc header:
    [IndexError] below 4 bytes, [StructError] otherwise. *)
Theorem unpack_file_truncated decompress hdr rest n :
  decode_bloscpack_header hdr = Ok (n, FORMAT_VERSION) -> 1 <= n ->
  (length rest < 16)%nat ->
  unpack_file decompress (hdr ++ rest)
  = Err (if Nat.ltb (length rest) 4 then IndexError else StructError).
Proof.
  intros Hd Hn Hr.
  pose proof (decode_bloscpack_header_length _ _ Hd) as Hl.
  unfold unpack_file, open_rb.
  change BLOSCPACK_HEADER_LENGTH with (Z.of_nat 16).
  rewrite fread_start by lia. cbn [bind].
  rewrite firstn_all2 by lia. rewrite Hd. cbn [bind negb FORMAT_VERSION Z.eqb Pos.eqb].
  replace (Z.to_nat n) with (S (Z.to_nat (n - 1))) by lia.
  cbn [unpack_chunks]. unfold fread. cbn [pos data].
  rewrite <- Hl, skipn_length_app.
  change (BLOSC_HEADER_LENGTH <? 0) with false. cbn iota.
  rewrite firstn_all2 by (cbn; lia).
  rewrite decode_blosc_header_short by assumption.
  destruct (Nat.ltb (length rest) 4); reflexivity.
Qed.

(** ** Properties of the command-line layer *)

Lemma snd_bind_io {A B} (m : io A) (k : A -> io B) :
  snd (bind_io m k) = match snd m with inl a => snd (k a) | inr e => inr e end.
Proof.
  destruct m as [o [a|e]]; cbn; [destruct (k a)|]; reflexivity.
Qed.

Lemma snd_try_except {A} (m : io A) c h :
  snd (try_except m c h)
  = match snd m with inl a => inl a | inr e => if c e then snd (h e) else inr e end.
Proof.
  destruct m as [o [a|e]]; cbn; [reflexivity|].
  destruct (c e); [destruct (h e)|]; reflexivity.
Qed.

Lemma snd_error_ {A} PREFIX message code :
  snd (error_ (A:=A) PREFIX message code) = inr (Exit code).
Proof. reflexivity. Qed.

Lemma print_verbose_valid PREFIX LEVEL message level :
  In level VERBOSITY_LEVELS -> In LEVEL VERBOSITY_LEVELS ->
  print_verbose PREFIX LEVEL message level
  = (if String.eqb level NORMAL || String.eqb LEVEL DEBUG || String.eqb level LEVEL
     then [PREFIX +++ ": "%string +++ message] else [], inl tt).
Proof.
  intros Hl HL.
  destruct Hl as [<-|[<-|[<-|[]]]]; destruct HL as [<-|[<-|[<-|[]]]];
    reflexivity.
Qed.

Lemma list_index_levels_none level :
  ~ In level VERBOSITY_LEVELS -> list_index level VERBOSITY_LEVELS = None.
Proof.
  intros H. unfold VERBOSITY_LEVELS in *. cbn [list_index].
  destruct (String.eqb_spec level NORMAL); [subst; cbn in H; tauto|].
  destruct (String.eqb_spec level VERBOSE); [subst; cbn in H; tauto|].
  destruct (String.eqb_spec level DEBUG); [subst; cbn in H; tauto|].
  reflexivity.
Qed.

Lemma check_files_snd PREFIX LEVEL fs in_file out_file args :
  In LEVEL VERBOSITY_LEVELS ->
  snd (check_files PREFIX LEVEL fs in_file out_file args)
  = if negb (path_exists fs in_file) then inr (Exit 1)
    else if path_exists fs out_file && negb (ns_force args) then inr (Exit 1)
    else inl tt.
Proof.
  intros HL. assert (HV : In VERBOSE VERBOSITY_LEVELS) by (cbn; tauto).
  unfold check_files. rewrite !print_verbose_valid by assumption.
  unfold path_exists.
  destruct (fs in_file), (fs out_file), (ns_force args); reflexivity.
Qed.

(** Strings. *)

Lemma length_append s t :
  String.length (s +++ t) = (String.length s + String.length t)%nat.
Proof. induction s as [|c s IH]; cbn; [reflexivity | rewrite IH; reflexivity]. Qed.

Lemma substring_full s : substring 0 (String.length s) s = s.
Proof. induction s as [|c s IH]; cbn; [reflexivity | rewrite IH; reflexivity]. Qed.

Lemma substring_append_l s t : substring 0 (String.length s) (s +++ t) = s.
Proof.
  induction s as [|c s IH]; cbn; [destruct t; reflexivity | rewrite IH; reflexivity].
Qed.

Lemma substring_append_r s t :
  substring (String.length s) (String.length t) (s +++ t) = t.
Proof.
  induction s as [|c s IH]; cbn; [apply substring_full | exact IH].
Qed.

Lemma endswith_append s t : endswith (s +++ t) t = true.
Proof.
  unfold endswith. rewrite length_append.
  replace (String.length s + String.length t - String.length t)%nat
    with (String.length s) by lia.
  rewrite substring_append_r, String.eqb_refl, andb_true_r.
  apply Nat.leb_le. lia.
Qed.

Lemma drop_end_append s t : drop_end (String.length t) (s +++ t) = s.
Proof.
  unfold drop_end. rewrite length_append.
  replace (String.length s + String.length t - String.length t)%nat
    with (String.length s) by lia.
  apply substring_append_l.
Qed.

Lemma append_neq s t : t <> EmptyString -> s +++ t <> s.
Proof.
  intros Ht E. apply (f_equal String.length) in E. rewrite length_append in E.
  destruct t; [congruence|]. cbn in E. lia.
Qed.

Lemma last_char_append s c :
  last_char (s +++ String c EmptyString) = Some (String c EmptyString) /\
  drop_last (s +++ String c EmptyString) = s.
Proof.
  unfold last_char, drop_last. rewrite length_append. cbn [String.length].
  rewrite Nat.add_1_r. split.
  - f_equal. apply (substring_append_r s (String c EmptyString)).
  - replace (S (String.length s) - 1)%nat with (String.length s) by lia.
    apply substring_append_l.
Qed.

Lemma no_nl_empty : no_nl EmptyString.
Proof. unfold no_nl. cbn. tauto. Qed.

Lemma no_nl_cons c l : c <> newline -> no_nl l -> no_nl (String c l).
Proof. unfold no_nl. cbn. intros Hc Hl [H|H]; [congruence | contradiction]. Qed.

Lemma split_nl_spec s :
  Forall no_nl (split_nl s) /\ String.concat EmptyString (split_nl s) = strip_nl s.
Proof.
  induction s as [|c s [IHf IHc]]; cbn [split_nl strip_nl].
  - split; [constructor; [apply no_nl_empty | constructor] | reflexivity].
  - destruct (Ascii.eqb_spec c newline) as [E|E].
    + split; [constructor; [apply no_nl_empty | assumption]|].
      rewrite <- IHc. destruct (split_nl s); reflexivity.
    + destruct (split_nl s) as [|l ls] eqn:Hs.
      * split; [constructor; [apply no_nl_cons; [assumption | apply no_nl_empty] | constructor] | ].
        cbn in IHc |- *. rewrite <- IHc. reflexivity.
      * inversion IHf as [|? ? Hl Hls]; subst.
        split; [constructor; [apply no_nl_cons; assumption | assumption]|].
        rewrite <- IHc. destruct ls; reflexivity.
Qed.

Lemma append_empty_r s : s +++ EmptyString = s.
Proof. induction s as [|c s IH]; cbn; [reflexivity | rewrite IH; reflexivity]. Qed.

Lemma concat_empty_cons l ls :
  String.concat EmptyString (l :: ls) = l +++ String.concat EmptyString ls.
Proof. destruct ls; cbn; [symmetry; apply append_empty_r | reflexivity]. Qed.

Lemma concat_filter_nonempty ls :
  String.concat EmptyString (filter (fun l => negb (String.eqb l EmptyString)) ls)
  = String.concat EmptyString ls.
Proof.
  induction ls as [|l ls IH]; [reflexivity|].
  cbn [filter]. rewrite concat_empty_cons.
  destruct (String.eqb_spec l EmptyString) as [->|Hl]; cbn [negb].
  - exact IH.
  - rewrite concat_empty_cons, IH. reflexivity.
Qed.

Lemma dict_get_none {A} k (d : list (string * A)) :
  ~ In k (map fst d) -> dict_get k d = None.
Proof.
  induction d as [|[k' v] d IH]; cbn; [reflexivity|].
  intros H. destruct (String.eqb_spec k k'); [subst; tauto|].
  apply IH. tauto.
Qed.

Lemma suffix_entry suf lim :
  In (suf, lim) SUFFIXES ->
  (exists c, suf = String c EmptyString) /\ dict_get suf SUFFIXES = Some lim /\ 1 <= lim.
Proof.
  cbn. intros [E|[E|[E|[E|[E|[]]]]]]; injection E as <- <-;
    (split; [eexists; reflexivity | split; [reflexivity | lia]]).
Qed.

Lemma reverse_pretty_number py_float s suf lim k :
  In (suf, lim) SUFFIXES -> py_float s = Some (Fin (Qmake k 1)) ->
  reverse_pretty py_float (s +++ suf)
  = if DBL_MAX <? Z.abs (k * lim) then ([], inr OverflowError) else ([], inl (k * lim)).
Proof.
  intros Hs Hf. destruct (suffix_entry _ _ Hs) as [[c ->] [Hd _]].
  destruct (last_char_append s c) as [Hl Hdl].
  unfold reverse_pretty. rewrite Hl, Hd, Hdl, Hf.
  unfold float_mul_pow2, int_of_float. cbn [Qnum Qden].
  rewrite Z.mul_1_r.
  destruct (DBL_MAX <? Z.abs (k * lim)); [reflexivity|].
  cbn [Qnum Qden]. rewrite Z.quot_1_r. reflexivity.
Qed.

Lemma reverse_pretty_errors py_float readable e :
  snd (reverse_pretty py_float readable) = inr e ->
  e = Raise IndexError \/ e = Raise ValueError \/ e = OverflowError.
Proof.
  unfold reverse_pretty.
  destruct (last_char readable) as [suf|];
    [destruct (dict_get suf SUFFIXES) as [m|];
     [destruct (py_float (drop_last readable)) as [f|];
      [destruct (float_mul_pow2 f m)|]|]|];
    cbn; intros H; inversion H; auto.
Qed.

(** [pretty_size] returns [None] exactly for sizes below one byte;
    otherwise it picks an entry [(suf, lim)] of [SUFFIXES] with
    [lim <= size < 1024 * lim] (or the largest unit, [T]). *)
Theorem pretty_size_unit str_round_div size :
  (pretty_size str_round_div size = None <-> size < 1) /\
  (1 <= size ->
   exists suf lim,
     pretty_size str_round_div size = Some (str_round_div size lim +++ suf) /\
     In (suf, lim) SUFFIXES /\ lim <= size /\
     (size < 2 ^ 10 * lim \/ suf = "T"%string)).
Proof.
  unfold pretty_size.
  replace (rev (sort_by_snd SUFFIXES))
    with [("T"%string, 2 ^ 40); ("G"%string, 2 ^ 30); ("M"%string, 2 ^ 20);
          ("K"%string, 2 ^ 10); ("B"%string, 1)] by reflexivity.
  cbn [pretty_loop].
  zbool.
  all: split; [split; [intros E; try discriminate E; lia | intros; reflexivity || lia] |
               intros Hs; try lia].
  all: do 2 eexists; split; [reflexivity|].
  all: split; [auto 20|].
  all: split; [lia | lia || (right; reflexivity)].
Qed.

(** [reverse_pretty] raises [IndexError] on the empty string and
    [ValueError] when the last character is not a unit of [SUFFIXES]
    (the units are case sensitive), whatever [float] does; on
    [<k><unit>] with [float(k)] the integer [k] it returns [k] times the
    unit, or raises [OverflowError] when the product exceeds the largest
    double. *)
Theorem reverse_pretty_cases py_float readable :
  (readable = EmptyString ->
   reverse_pretty py_float readable = ([], inr (Raise IndexError))) /\
  (forall s c, readable = s +++ String c EmptyString ->
   ~ In (String c EmptyString) (map fst SUFFIXES) ->
   reverse_pretty py_float readable = ([], inr (Raise ValueError))) /\
  (forall s suf lim k, readable = s +++ suf -> In (suf, lim) SUFFIXES ->
   py_float s = Some (Fin (Qmake k 1)) ->
   reverse_pretty py_float readable
   = if DBL_MAX <? Z.abs (k * lim) then ([], inr OverflowError)
     else ([], inl (k * lim))).
Proof.
  split; [intros ->; reflexivity|]. split.
  - intros s c -> Hn. destruct (last_char_append s c) as [Hl _].
    unfold reverse_pretty. rewrite Hl, dict_get_none by exact Hn. reflexivity.
  - intros s suf lim k -> Hs Hf. apply reverse_pretty_number; assumption.
Qed.

(** [CheckChunkSizeOption] lets the [IndexError] of an empty value
    through uncaught; its other failures are an exit with code 1 or the
    [OverflowError] of a too large value; every value it stores is
    non-negative, and a zero size (e.g. [0M]) is accepted although its
    message asks for [> 0]. *)
Theorem check_chunk_size_option_cases py_float exc_message PREFIX option_string value :
  (value = EmptyString ->
   snd (check_chunk_size_option py_float exc_message PREFIX option_string value)
   = inr (Raise IndexError)) /\
  (forall e, snd (check_chunk_size_option py_float exc_message PREFIX option_string value)
             = inr e -> e = Exit 1 \/ e = Raise IndexError \/ e = OverflowError) /\
  (forall v, snd (check_chunk_size_option py_float exc_message PREFIX option_string value)
             = inl v -> 0 <= v) /\
  (forall s suf lim, value = s +++ suf -> In (suf, lim) SUFFIXES ->
   py_float s = Some (Fin (Qmake 0 1)) ->
   snd (check_chunk_size_option py_float exc_message PREFIX option_string value) = inl 0).
Proof.
  unfold check_chunk_size_option.
  split; [intros ->; reflexivity|].
  split; [|split].
  - intros e. rewrite snd_bind_io, snd_try_except.
    destruct (snd (reverse_pretty py_float value)) as [v|e'] eqn:E.
    + destruct (v <? 0); cbn; intros H; inversion H; auto.
    + apply reverse_pretty_errors in E.
      destruct E as [-> | [-> | ->]]; cbn; intros H; inversion H; auto.
  - intros v. rewrite snd_bind_io, snd_try_except.
    destruct (snd (reverse_pretty py_float value)) as [w|e'] eqn:E.
    + destruct (Z.ltb_spec w 0) as [Hw|Hw]; cbn; intros H; [discriminate H|].
      inversion H; subst; assumption.
    + destruct e' as [e'| | | c]; [destruct e'|..]; cbn; intros H; discriminate H.
  - intros s suf lim -> Hs Hf. rewrite snd_bind_io, snd_try_except.
    rewrite (reverse_pretty_number py_float s suf lim 0 Hs Hf).
    reflexivity.
Qed.

(** [print_verbose] raises [TypeError] when [level] is not a verbosity
    level and [ValueError] when the global [LEVEL] is not one; otherwise
    it prints the prefixed message exactly when [level] is [NORMAL],
    [LEVEL] is [DEBUG], or the two are equal, and never raises. *)
Theorem print_verbose_levels PREFIX LEVEL message level :
  (~ In level VERBOSITY_LEVELS ->
   print_verbose PREFIX LEVEL message level = ([], inr TypeError)) /\
  (In level VERBOSITY_LEVELS -> ~ In LEVEL VERBOSITY_LEVELS ->
   print_verbose PREFIX LEVEL message level = ([], inr (Raise ValueError))) /\
  (In level VERBOSITY_LEVELS -> In LEVEL VERBOSITY_LEVELS ->
   print_verbose PREFIX LEVEL message level
   = (if String.eqb level NORMAL || String.eqb LEVEL DEBUG || String.eqb level LEVEL
      then [PREFIX +++ ": "%string +++ message] else [], inl tt)).
Proof.
  split; [|split].
  - intros H. unfold print_verbose. rewrite list_index_levels_none by exact H.
    reflexivity.
  - intros Hl HL. unfold print_verbose.
    rewrite (list_index_levels_none LEVEL HL).
    destruct Hl as [<- | [<- | [<- | []]]]; reflexivity.
  - apply print_verbose_valid.
Qed.

(** [error] ends in an exit with the given code, after printing one
    line [PREFIX: error: l] for each non-empty line [l] of the message:
    the lines carry no newline, and together they are the message with its
    newlines removed. *)
Theorem error_lines {A} PREFIX message exit_code :
  snd (error_ (A:=A) PREFIX message exit_code) = inr (Exit exit_code) /\
  exists ls,
    fst (error_ (A:=A) PREFIX message exit_code)
    = map (fun l => PREFIX +++ ": error: "%string +++ l) ls /\
    Forall (fun l => l <> EmptyString /\ no_nl l) ls /\
    String.concat EmptyString ls = strip_nl message.
Proof.
  split; [reflexivity|].
  destruct (split_nl_spec message) as [Hf Hc].
  eexists; split; [reflexivity|]. split.
  - apply Forall_forall. intros l Hl. apply filter_In in Hl as [Hl Hn].
    split; [intros ->; discriminate Hn|].
    exact (proj1 (Forall_forall _ _) Hf l Hl).
  - rewrite concat_filter_nonempty. exact Hc.
Qed.

(** Under a valid [LEVEL], [check_files] passes exactly when the input
    file exists and the output file is absent or [--force] is given;
    otherwise it exits with code 1. *)
Theorem check_files_outcome PREFIX LEVEL fs in_file out_file args :
  In LEVEL VERBOSITY_LEVELS ->
  (snd (check_files PREFIX LEVEL fs in_file out_file args) = inl tt <->
   fs in_file <> None /\ (fs out_file <> None -> ns_force args = true)) /\
  (forall e, snd (check_files PREFIX LEVEL fs in_file out_file args) = inr e ->
   e = Exit 1).
Proof.
  intros HL. rewrite check_files_snd by exact HL. unfold path_exists.
  destruct (fs in_file), (fs out_file), (ns_force args); cbn;
    (split; [split; [intros H; try discriminate H | intros [H1 H2]] |
             intros e H; inversion H; reflexivity]);
    try (split; congruence); try congruence.
  discriminate (H2 ltac:(congruence)).
Qed.

(** With default output names, decompressing the file that compression
    wrote gives back the original file name: [process_decompression_args]
    accepts [<in_file>.blp] and strips the extension. *)
Theorem decompression_names_roundtrip PREFIX args args' :
  ns_out_file args = None ->
  ns_in_file args' = snd (fst (process_compression_args args)) ->
  ns_out_file args' = None -> ns_no_check_extension args' = false ->
  process_decompression_args PREFIX args' = ret (ns_in_file args', ns_in_file args).
Proof.
  intros Ho Hin Ho' Hn. unfold process_compression_args in Hin.
  rewrite Ho in Hin. cbn [fst snd] in Hin.
  unfold process_decompression_args. rewrite Hn, Ho', Hin.
  rewrite endswith_append, drop_end_append. reflexivity.
Qed.

Lemma zlib_hash_bytes func data :
  exists d, snd (zlib_hash func) data = Ok d /\ length d = 4%nat /\
    le_value d = func data mod 2 ^ 32.
Proof.
  cbn [zlib_hash snd].
  replace 4294967295 with (Z.ones 32) by reflexivity.
  rewrite Z.land_ones by lia.
  assert (Hb : 0 <= func data mod 2 ^ 32 < 2 ^ 32)
    by (apply Z.mod_pos_bound; lia).
  unfold struct_pack_I.
  destruct (Z.leb_spec 0 (func data mod 2 ^ 32)); [|lia].
  destruct (Z.leb_spec (func data mod 2 ^ 32) (2 ^ 32 - 1)); [|lia].
  cbn [andb]. eexists; split; [reflexivity|]. split.
  - apply le_bytes_length.
  - rewrite le_value_le_bytes. apply Z.mod_small.
    replace (8 * Z.of_nat 4) with 32 by reflexivity. exact Hb.
Qed.

(** The zlib checksums ([adler32], [crc32]) give a 4-byte digest, as
    their size says: the little-endian encoding of the checksum modulo
    [2 ^ 32], also for the negative values of Python 2. *)
Theorem zlib_hash_digest func data :
  fst (zlib_hash func) = 4 /\
  exists d, snd (zlib_hash func) data = Ok d /\ length d = 4%nat /\
    le_value d = func data mod 2 ^ 32.
Proof. split; [reflexivity | apply zlib_hash_bytes]. Qed.

Lemma str_contains_append_r s t sub :
  str_contains t sub = true -> str_contains (s +++ t) sub = true.
Proof.
  induction s as [|c s IH]; cbn [String.append]; intros H; [exact H|].
  cbn [str_contains]. rewrite IH by exact H. apply orb_true_r.
Qed.

(** Every checksum of [CHECKSUMS] is found under its own name by
    [CHECKSUMS_LOOKUP], and its function returns a digest of the length
    its size gives, provided each [hashlib] function returns digests of
    its [digest_size]. *)
Theorem checksums_lookup_sizes adler32 crc32 md5 sha1 sha224 sha256 sha384 sha512 :
  (forall f data, In f [md5; sha1; sha224; sha256; sha384; sha512] ->
   Z.of_nat (length (digest f data)) = digest_size f) ->
  forall c, In c (CHECKSUMS adler32 crc32 md5 sha1 sha224 sha256 sha384 sha512) ->
  CHECKSUMS_LOOKUP adler32 crc32 md5 sha1 sha224 sha256 sha384 sha512 (hname c) = Some c /\
  forall data, exists d, hfunction c data = Ok d /\ Z.of_nat (length d) = hsize c.
Proof.
  intros Hd c Hc. unfold CHECKSUMS in Hc.
  destruct Hc as [<- | [<- | [<- | [<- | [<- | [<- | [<- | [<- | [<- | []]]]]]]]]];
    (split; [reflexivity | intros data]);
    try (exists []; split; reflexivity);
    try (destruct (zlib_hash_bytes adler32 data) as (d & E & L & _);
         exists d; split; [exact E | rewrite L; reflexivity]);
    try (destruct (zlib_hash_bytes crc32 data) as (d & E & L & _);
         exists d; split; [exact E | rewrite L; reflexivity]);
    (eexists; split; [reflexivity | apply Hd; cbn; tauto]).
Qed.

(** The help formatter is idempotent: formatting an already formatted
    help string changes nothing (the [%(default)] it appended is found). *)
Theorem get_help_string_idempotent a :
  get_help_string {| act_help := get_help_string a; act_default := act_default a;
                     act_option_strings := act_option_strings a;
                     act_nargs := act_nargs a |}
  = get_help_string a.
Proof.
  unfold get_help_string at 2.
  destruct (negb (str_contains (act_help a) "%(default)") &&
            negb (py_in (act_default a) [SUPPRESS; PyNone; PyBool true; PyBool false]))
    eqn:E1; [|reflexivity].
  destruct ((match act_option_strings a with [] => false | _ => true end) ||
            py_in (act_nargs a) [OPTIONAL; ZERO_OR_MORE]) eqn:E2.
  - unfold get_help_string. cbn [act_help act_default act_option_strings act_nargs].
    rewrite E1, E2.
    rewrite (str_contains_append_r (act_help a) " (default: %(default)s)"
               "%(default)" eq_refl).
    reflexivity.
  - unfold get_help_string. cbn [act_help act_default act_option_strings act_nargs].
    rewrite E1, E2. reflexivity.
Qed.

(** Because Python's [==] equates [0] with [False] and [1] with
    [True], the formatter appends no default to an action whose default is
    [None], a boolean, or the integer [0] or [1]. *)
Theorem get_help_string_hidden_defaults a :
  act_default a = PyNone \/ act_default a = PyInt 0 \/ act_default a = PyInt 1 \/
  (exists b, act_default a = PyBool b) ->
  get_help_string a = act_help a.
Proof.
  intros H. unfold get_help_string.
  destruct H as [E | [E | [E | [b E]]]]; rewrite E;
    [|..|destruct b]; cbn [py_in existsb py_eq SUPPRESS Bool.eqb orb];
    rewrite ?andb_false_r; reflexivity.
Qed.

(** The subcommand names: [main] tries the compress names first. *)
Lemma decompress_not_compress sub :
  existsb (String.eqb sub) ["decompress"; "d"]%string = true ->
  existsb (String.eqb sub) ["compress"; "c"]%string = false.
Proof.
  cbn. destruct (String.eqb_spec sub "decompress") as [->|_]; [reflexivity|].
  destruct (String.eqb_spec sub "d") as [->|_]; [reflexivity|]. discriminate.
Qed.

Lemma main_level_valid args :
  In (if ns_verbose args then VERBOSE else if ns_debug args then DEBUG else NORMAL)
     VERBOSITY_LEVELS.
Proof. destruct (ns_verbose args), (ns_debug args); cbn; tauto. Qed.

Lemma reverse_pretty_default py_float :
  py_float "1"%string = Some (Fin (Qmake 1 1)) ->
  reverse_pretty py_float DEFAULT_CHUNK_SIZE = ([], inl (2 ^ 20)).
Proof.
  intros Hf.
  change DEFAULT_CHUNK_SIZE with ("1" +++ "M")%string.
  rewrite (reverse_pretty_number py_float "1" "M" (2 ^ 20) 1 ltac:(cbn; tauto) Hf).
  reflexivity.
Qed.

Lemma calculate_default_chunk max_buffer len :
  2 ^ 20 <= max_buffer -> 2 ^ 20 <= len <= MAX_CHUNKS ->
  exists n cs lcs,
    calculate_nchunks max_buffer len None (Some (2 ^ 20)) = Ok (n, cs, lcs).
Proof.
  intros Hm Hl. rewrite ?MAX_CHUNKS_eq in *.
  unfold calculate_nchunks, nchunks_branch.
  zbool; divfacts; rewrite ?MAX_CHUNKS_eq in *; try lia; eauto; nia.
Qed.

(** With neither [--nchunks] nor [--chunk-size], [compress] uses chunks
    of [DEFAULT_CHUNK_SIZE] (1 MiB), which [calculate_nchunks] rejects for
    an input smaller than that: compressing any file under 1 MiB with the
    default options ends in an exit with code 1. *)
Theorem main_compress_small_input py_float exc_message compress decompress max_buffer
    PREFIX args fs B :
  existsb (String.eqb (ns_subcommand args)) ["compress"; "c"]%string = true ->
  ns_nchunks args = None -> ns_chunk_size args = None ->
  py_float "1"%string = Some (Fin (Qmake 1 1)) ->
  fs (ns_in_file args) = Some B -> Z.of_nat (length B) < 2 ^ 20 ->
  snd (main py_float exc_message compress decompress max_buffer PREFIX args fs)
  = inr (Exit 1).
Proof.
  intros Hc Hn Hcs Hf HB Hlen.
  unfold main. rewrite Hc.
  pose proof (main_level_valid args) as HL.
  unfold main_compress, process_compression_args.
  rewrite snd_bind_io, check_files_snd by exact HL.
  destruct (negb (path_exists fs (ns_in_file args))); [reflexivity|].
  destruct (path_exists fs _ && negb (ns_force args)); [reflexivity|].
  rewrite Hn, Hcs, snd_bind_io, snd_bind_io, reverse_pretty_default by exact Hf.
  cbn [bind_io snd app ret].
  rewrite snd_bind_io. unfold read_file. rewrite HB. cbn [snd ret].
  rewrite snd_try_except, snd_bind_io.
  assert (Hp : forall d, pack_file compress max_buffer (Z.of_nat (length B)) d
                 {| bl_typesize := ns_typesize args; bl_clevel := ns_clevel args;
                    bl_shuffle := ns_shuffle args |} None (Some (2 ^ 20))
               = Err ChunkingException).
  { intros d. unfold pack_file, calculate_nchunks, nchunks_branch.
    destruct (Z.gtb_spec (2 ^ 20) (Z.of_nat (length B))); [reflexivity | lia]. }
  rewrite Hp. reflexivity.
Qed.

Section MainRoundTrip.

Variable py_float : string -> option pyfloat.
Variable exc_message : exc -> string.
Variable compress : list byte -> blosc_args -> list byte.
Variable decompress : list byte -> list byte.
Variable max_buffer : Z.

(** The default chunk size fits in a Blosc buffer, the codec laws hold,
    and [float('1')] is [1.0]. *)
Hypothesis max_buffer_chunk : 2 ^ 20 <= max_buffer.
Hypothesis decompress_compress : forall b a,
  Z.of_nat (length b) <= max_buffer -> decompress (compress b a) = b.
Hypothesis compress_ctbytes : forall b a,
  Z.of_nat (length b) <= max_buffer ->
  exists h, decode_blosc_header (firstn 16 (compress b a)) = Ok h /\
            ctbytes h = Z.of_nat (length (compress b a)).
Hypothesis float_one : py_float "1"%string = Some (Fin (Qmake 1 1)).

(** Compressing a file of 1 MiB or more with the default options writes
    [<in_file>.blp]; decompressing that file with default names then
    refuses to overwrite the still present [<in_file>] unless [--force]
    is given, and with [--force] writes the original contents back. *)
Theorem main_roundtrip PREFIX args args' fs B :
  existsb (String.eqb (ns_subcommand args)) ["compress"; "c"]%string = true ->
  ns_out_file args = None -> ns_nchunks args = None -> ns_chunk_size args = None ->
  fs (ns_in_file args) = Some B -> fs (ns_in_file args +++ EXTENSION) = None ->
  2 ^ 20 <= Z.of_nat (length B) <= MAX_CHUNKS ->
  existsb (String.eqb (ns_subcommand args')) ["decompress"; "d"]%string = true ->
  ns_in_file args' = ns_in_file args +++ EXTENSION ->
  ns_out_file args' = None -> ns_no_check_extension args' = false ->
  exists fs1,
    snd (main py_float exc_message compress decompress max_buffer PREFIX args fs)
    = inl fs1 /\
    fs1 (ns_in_file args') <> None /\
    (ns_force args' = false ->
     snd (main py_float exc_message compress decompress max_buffer PREFIX args' fs1)
     = inr (Exit 1)) /\
    (ns_force args' = true ->
     exists fs2,
       snd (main py_float exc_message compress decompress max_buffer PREFIX args' fs1)
       = inl fs2 /\ fs2 (ns_in_file args) = Some B).
Proof.
  intros Hc Ho Hn Hcs HB Hout Hlen Hd Hin' Ho' Hnc.
  set (i := ns_in_file args) in *.
  set (ba := {| bl_typesize := ns_typesize args; bl_clevel := ns_clevel args;
                bl_shuffle := ns_shuffle args |}).
  assert (Hmax : 0 < max_buffer) by lia.
  destruct (calculate_default_chunk max_buffer (Z.of_nat (length B)) max_buffer_chunk Hlen)
    as (n & cs & lcs & Hcalc).
  assert (Hnot : ~ (None = @None Z /\ Some (2 ^ 20) = None /\
                    max_buffer < Z.of_nat (length B) /\
                    Z.of_nat (length B) mod max_buffer = 0))
    by (intros (_ & E & _); discriminate E).
  destruct (calculate_nchunks_partition max_buffer Hmax (Z.of_nat (length B))
              None (Some (2 ^ 20)) n cs lcs ltac:(lia) Hcalc Hnot) as (Hn1 & Hcs0 & Hlcs0 & Hsum).
  pose proof (pack_unpack compress decompress max_buffer Hmax decompress_compress
                compress_ctbytes (Z.of_nat (length B)) B ba None (Some (2 ^ 20))
                n cs lcs eq_refl ltac:(lia) Hcalc) as Hpu.
  replace (Z.to_nat (n - 1) * Z.to_nat cs + Z.to_nat lcs)%nat with (length B) in Hpu
    by (apply Nat2Z.inj; rewrite Nat2Z.inj_add, Nat2Z.inj_mul, !Z2Nat.id by lia; lia).
  rewrite firstn_all in Hpu.
  destruct (pack_file compress max_buffer (Z.of_nat (length B)) B ba None (Some (2 ^ 20)))
    as [P|e] eqn:HP; cbn [bind] in Hpu; [|discriminate Hpu].
  assert (Hneq : String.eqb (i +++ EXTENSION) i = false)
    by (apply String.eqb_neq, append_neq; discriminate).
  assert (Hneq' : String.eqb i (i +++ EXTENSION) = false)
    by (rewrite String.eqb_sym; exact Hneq).
  set (fs1 := write_file fs (i +++ EXTENSION) P).
  exists fs1. split; [|split; [|split]].
  - (* compress *)
    unfold main. rewrite Hc. pose proof (main_level_valid args) as HL.
    unfold main_compress, process_compression_args. fold i. rewrite Ho.
    rewrite snd_bind_io, check_files_snd by exact HL.
    unfold path_exists at 1 2. rewrite HB, Hout. cbn [negb andb].
    rewrite Hn, Hcs, snd_bind_io, snd_bind_io, reverse_pretty_default by exact float_one.
    cbn [bind_io snd app ret].
    rewrite snd_bind_io. unfold read_file. rewrite HB. cbn [snd ret].
    rewrite Hneq. fold ba.
    rewrite snd_try_except, snd_bind_io, HP. reflexivity.
  - (* the written file *)
    unfold fs1, write_file. rewrite Hin', String.eqb_refl. discriminate.
  - (* decompress without --force *)
    intros Hf. unfold main. rewrite (decompress_not_compress _ Hd), Hd.
    pose proof (main_level_valid args') as HL.
    unfold main_decompress, process_decompression_args.
    rewrite Hnc, Ho', Hin', endswith_append, drop_end_append.
    rewrite snd_bind_io. cbn [ret snd].
    rewrite snd_bind_io, check_files_snd by exact HL.
    unfold path_exists, fs1, write_file.
    rewrite String.eqb_refl, Hneq', HB, Hf. reflexivity.
  - (* decompress with --force *)
    intros Hf. unfold main. rewrite (decompress_not_compress _ Hd), Hd.
    pose proof (main_level_valid args') as HL.
    unfold main_decompress, process_decompression_args.
    rewrite Hnc, Ho', Hin', endswith_append, drop_end_append.
    rewrite snd_bind_io. cbn [ret snd].
    rewrite snd_bind_io, check_files_snd by exact HL.
    unfold path_exists at 1 2. unfold fs1 at 1 2, write_file at 1 2.
    rewrite String.eqb_refl, Hneq', HB, Hf. cbn [negb andb].
    rewrite snd_bind_io. unfold read_file. unfold fs1 at 1, write_file at 1.
    rewrite String.eqb_refl. cbn [snd ret].
    rewrite snd_try_except, snd_bind_io.
    rewrite Hpu. cbn.
    eexists; split; [reflexivity|].
    unfold write_file. rewrite String.eqb_refl. reflexivity.
Qed.

End MainRoundTrip.

(** ** Witnesses of the extra properties *)

Lemma pack_unpack_roundtrip_witness :
  (p <- pack_file store_compress 10 5 (repeat x61 5) DEFAULT_BLOSC_ARGS None None ;;
   unpack_file store_decompress p) = Ok (repeat x61 5).
Proof.
  apply (pack_unpack_roundtrip store_compress store_decompress 10 ltac:(lia)
           (fun b a _ => store_decompress_compress b a)
           (fun b a Hb => store_compress_ctbytes b a ltac:(lia))
           5 (repeat x61 5) DEFAULT_BLOSC_ARGS None None 1 0 5).
  - reflexivity.
  - lia.
  - intros _ _. lia.
  - vm_compute. reflexivity.
  - intros (_ & _ & H & _). lia.
Defined.

Lemma calculate_nchunks_plan_sound_witness :
  calculate_nchunks BLOSC_MAX_BUFFERSIZE 100 (Some 3) None = Ok (3, 50, 0) /\
  1 <= 3 <= MAX_CHUNKS /\ 0 <= 50 <= BLOSC_MAX_BUFFERSIZE.
Proof.
  assert (E : calculate_nchunks BLOSC_MAX_BUFFERSIZE 100 (Some 3) None = Ok (3, 50, 0))
    by (vm_compute; reflexivity).
  destruct (calculate_nchunks_plan_sound BLOSC_MAX_BUFFERSIZE
              ltac:(unfold BLOSC_MAX_BUFFERSIZE; lia) 100 (Some 3) None 3 50 0
              ltac:(lia) E) as (H1 & H2 & _).
  split; [exact E | split; assumption].
Defined.

Lemma calculate_nchunks_error_kind_witness :
  calculate_nchunks BLOSC_MAX_BUFFERSIZE 10 (Some 2) (Some 5) = Err ValueError /\
  ValueError = ValueError.
Proof.
  assert (E : calculate_nchunks BLOSC_MAX_BUFFERSIZE 10 (Some 2) (Some 5) = Err ValueError)
    by reflexivity.
  split; [exact E|].
  exact (calculate_nchunks_error_kind BLOSC_MAX_BUFFERSIZE 10 (Some 2) (Some 5)
           ValueError E).
Defined.

Lemma calculate_nchunks_rejects_witness :
  calculate_nchunks BLOSC_MAX_BUFFERSIZE 10 (Some 20) None = Err ChunkingException /\
  calculate_nchunks BLOSC_MAX_BUFFERSIZE 10 None (Some 20) = Err ChunkingException.
Proof.
  apply (calculate_nchunks_rejects BLOSC_MAX_BUFFERSIZE 10 20). lia.
Defined.

Lemma calculate_nchunks_nchunks_plan_witness :
  calculate_nchunks BLOSC_MAX_BUFFERSIZE 101 (Some 2) None = Ok (2, 50, 51) /\
  50 = 101 / 2 /\ 51 = 101 - 50.
Proof.
  assert (E : calculate_nchunks BLOSC_MAX_BUFFERSIZE 101 (Some 2) None = Ok (2, 50, 51))
    by (vm_compute; reflexivity).
  destruct (calculate_nchunks_nchunks_plan BLOSC_MAX_BUFFERSIZE 101 2 2 50 51 E)
    as (_ & _ & _ & _ & H).
  split; [exact E|]. apply H; [reflexivity | discriminate].
Defined.

Lemma calculate_nchunks_chunk_size_plan_witness :
  calculate_nchunks BLOSC_MAX_BUFFERSIZE 100 None (Some 30) = Ok (4, 30, 10) /\
  4 = ceil_div 100 30 /\ 30 * (4 - 1) + 10 = 100.
Proof.
  assert (E : calculate_nchunks BLOSC_MAX_BUFFERSIZE 100 None (Some 30) = Ok (4, 30, 10))
    by (vm_compute; reflexivity).
  split; [exact E|].
  destruct (calculate_nchunks_chunk_size_plan BLOSC_MAX_BUFFERSIZE
              ltac:(unfold BLOSC_MAX_BUFFERSIZE; lia) 100 30 4 30 10 E)
    as [(H & _) | (_ & _ & H1 & _ & H2)]; [discriminate H | split; assumption].
Defined.

Lemma decode_blosc_header_by_length_witness :
  decode_blosc_header [x02; x01; x00; x08; x10] = Err StructError.
Proof.
  apply (proj1 (proj2 (decode_blosc_header_by_length [x02; x01; x00; x08; x10]))).
  cbn. lia.
Defined.

Lemma decode_bloscpack_header_cases_witness :
  decode_bloscpack_header (repeat x00 16) = Err ValueError.
Proof.
  apply (proj1 (decode_bloscpack_header_cases (repeat x00 16))).
  right. discriminate.
Defined.

Lemma create_bloscpack_header_cases_witness :
  create_bloscpack_header (Some (-2)) FORMAT_VERSION = Err ValueError.
Proof.
  apply (proj1 (create_bloscpack_header_cases (Some (-2)) FORMAT_VERSION) (-2) eq_refl).
  lia.
Defined.

Lemma decode_create_header_any_witness :
  (h <- create_bloscpack_header None 7 ;; decode_bloscpack_header h) = Ok (-1, 7).
Proof.
  apply (decode_create_header_any None 7).
  - intros n H. discriminate H.
  - lia.
Defined.

Lemma pack_file_empty_input_witness :
  pack_file store_compress BLOSC_MAX_BUFFERSIZE 0 [] DEFAULT_BLOSC_ARGS None None
  = Err ZeroDivisionError.
Proof.
  exact (pack_file_empty_input store_compress BLOSC_MAX_BUFFERSIZE
           ltac:(unfold BLOSC_MAX_BUFFERSIZE; lia) [] DEFAULT_BLOSC_ARGS None None).
Defined.

Lemma unpack_file_header_errors_witness :
  unpack_file store_decompress ((MAGIC ++ [x02; x00; x00; x00] ++ le_bytes 8 1) ++ [x61])
  = Err SystemExit.
Proof.
  apply (proj2 (unpack_file_header_errors store_decompress []
                  (MAGIC ++ [x02; x00; x00; x00] ++ le_bytes 8 1) [x61] 1 2)).
  - vm_compute. reflexivity.
  - discriminate.
Defined.

Lemma unpack_file_truncated_witness :
  unpack_file store_decompress ((MAGIC ++ [x01; x00; x00; x00] ++ le_bytes 8 1) ++ [x61])
  = Err IndexError.
Proof.
  apply (unpack_file_truncated store_decompress
           (MAGIC ++ [x01; x00; x00; x00] ++ le_bytes 8 1) [x61] 1).
  - vm_compute. reflexivity.
  - lia.
  - cbn. lia.
Defined.

Lemma pretty_size_unit_witness :
  exists suf lim,
    pretty_size (fun _ _ => "1.5"%string) 1536 = Some ("1.5" +++ suf) /\
    In (suf, lim) SUFFIXES /\ lim <= 1536 /\ (1536 < 2 ^ 10 * lim \/ suf = "T"%string).
Proof.
  exact (proj2 (pretty_size_unit (fun _ _ => "1.5"%string) 1536) ltac:(lia)).
Defined.

Lemma reverse_pretty_cases_witness :
  reverse_pretty (fun s : string => if String.eqb s "2"%string then Some (Fin (Qmake 2 1)) else None)
    "2K" = ([], inl 2048).
Proof.
  exact (proj2 (proj2 (reverse_pretty_cases
           (fun s : string => if String.eqb s "2"%string then Some (Fin (Qmake 2 1)) else None) "2K"))
           "2"%string "K"%string (2 ^ 10) 2 eq_refl ltac:(cbn; tauto) eq_refl).
Defined.

Lemma check_chunk_size_option_cases_witness :
  snd (check_chunk_size_option
         (fun s : string => if String.eqb s "0"%string then Some (Fin (Qmake 0 1)) else None)
         (fun _ => EmptyString) "blpk" "--chunk-size" "0M") = inl 0.
Proof.
  exact (proj2 (proj2 (proj2 (check_chunk_size_option_cases
           (fun s : string => if String.eqb s "0"%string then Some (Fin (Qmake 0 1)) else None)
           (fun _ => EmptyString) "blpk" "--chunk-size" "0M")))
           "0"%string "M"%string (2 ^ 20) eq_refl ltac:(cbn; tauto) eq_refl).
Defined.

Lemma print_verbose_levels_witness :
  print_verbose "blpk" NORMAL "done" "INFO" = ([], inr TypeError).
Proof.
  apply (proj1 (print_verbose_levels "blpk" NORMAL "done" "INFO")).
  cbn. intros [H | [H | [H | []]]]; discriminate H.
Defined.

Lemma check_files_outcome_witness :
  snd (check_files "blpk" NORMAL
         (fun p : string => if String.eqb p "data"%string then Some [x61] else None) "data" "data.blp"
         {| ns_subcommand := "compress"; ns_in_file := "data"; ns_out_file := None;
            ns_nchunks := None; ns_chunk_size := None; ns_typesize := 8;
            ns_clevel := 7; ns_shuffle := true; ns_force := false;
            ns_no_check_extension := false; ns_verbose := false; ns_debug := false |})
  = inl tt.
Proof.
  apply (proj1 (check_files_outcome "blpk" NORMAL
           (fun p : string => if String.eqb p "data"%string then Some [x61] else None) "data" "data.blp"
           {| ns_subcommand := "compress"; ns_in_file := "data"; ns_out_file := None;
              ns_nchunks := None; ns_chunk_size := None; ns_typesize := 8;
              ns_clevel := 7; ns_shuffle := true; ns_force := false;
              ns_no_check_extension := false; ns_verbose := false; ns_debug := false |}
           ltac:(cbn; tauto))).
  split; [discriminate | intros H; exfalso; apply H; reflexivity].
Defined.

Lemma decompression_names_roundtrip_witness :
  process_decompression_args "blpk"
    {| ns_subcommand := "decompress"; ns_in_file := "data.blp"; ns_out_file := None;
       ns_nchunks := None; ns_chunk_size := None; ns_typesize := 8;
       ns_clevel := 7; ns_shuffle := true; ns_force := false;
       ns_no_check_extension := false; ns_verbose := false; ns_debug := false |}
  = ret ("data.blp"%string, "data"%string).
Proof.
  apply (decompression_names_roundtrip "blpk"
           {| ns_subcommand := "compress"; ns_in_file := "data"; ns_out_file := None;
              ns_nchunks := None; ns_chunk_size := None; ns_typesize := 8;
              ns_clevel := 7; ns_shuffle := true; ns_force := false;
              ns_no_check_extension := false; ns_verbose := false; ns_debug := false |});
    reflexivity.
Defined.

Lemma checksums_lookup_sizes_witness :
  exists d,
    hfunction (mkHash "crc32" (zlib_hash (fun _ => -1))) [x61] = Ok d /\
    Z.of_nat (length d) = hsize (mkHash "crc32" (zlib_hash (fun _ => -1))).
Proof.
  apply (proj2 (checksums_lookup_sizes (fun _ => 1) (fun _ => -1)
    {| digest := fun _ => repeat x00 16; digest_size := 16 |}
    {| digest := fun _ => repeat x00 20; digest_size := 20 |}
    {| digest := fun _ => repeat x00 28; digest_size := 28 |}
    {| digest := fun _ => repeat x00 32; digest_size := 32 |}
    {| digest := fun _ => repeat x00 48; digest_size := 48 |}
    {| digest := fun _ => repeat x00 64; digest_size := 64 |}
    ltac:(intros f data Hf; cbn in Hf;
          destruct Hf as [<- | [<- | [<- | [<- | [<- | [<- | []]]]]]]; reflexivity)
    (mkHash "crc32" (zlib_hash (fun _ => -1))) ltac:(cbn; tauto)) [x61]).
Defined.

Lemma get_help_string_hidden_defaults_witness :
  get_help_string {| act_help := "number of threads"; act_default := PyInt 1;
                     act_option_strings := ["-n"%string; "--nthreads"%string];
                     act_nargs := PyNone |}
  = "number of threads"%string.
Proof.
  apply get_help_string_hidden_defaults. cbn. auto.
Defined.

Lemma main_compress_small_input_witness :
  snd (main (fun s : string => if String.eqb s "1"%string then Some (Fin (Qmake 1 1)) else None)
         (fun _ => EmptyString) store_compress store_decompress BLOSC_MAX_BUFFERSIZE
         "blpk"
         {| ns_subcommand := "compress"; ns_in_file := "data"; ns_out_file := None;
            ns_nchunks := None; ns_chunk_size := None; ns_typesize := 8;
            ns_clevel := 7; ns_shuffle := true; ns_force := false;
            ns_no_check_extension := false; ns_verbose := false; ns_debug := false |}
         (fun p : string => if String.eqb p "data"%string then Some (repeat x61 100) else None))
  = inr (Exit 1).
Proof.
  apply (main_compress_small_input _ _ _ _ _ _ _ _ (repeat x61 100));
    reflexivity.
Defined.

Lemma main_roundtrip_witness :
  exists fs1 fs2,
    snd (main (fun s : string => if String.eqb s "1"%string then Some (Fin (Qmake 1 1)) else None)
           (fun _ => EmptyString) store_compress store_decompress BLOSC_MAX_BUFFERSIZE
           "blpk"
           {| ns_subcommand := "c"; ns_in_file := "data"; ns_out_file := None;
              ns_nchunks := None; ns_chunk_size := None; ns_typesize := 8;
              ns_clevel := 7; ns_shuffle := true; ns_force := false;
              ns_no_check_extension := false; ns_verbose := false; ns_debug := false |}
           (fun p : string => if String.eqb p "data"%string
                                then Some (repeat x61 (Z.to_nat (2 ^ 20))) else None))
    = inl fs1 /\
    snd (main (fun s : string => if String.eqb s "1"%string then Some (Fin (Qmake 1 1)) else None)
           (fun _ => EmptyString) store_compress store_decompress BLOSC_MAX_BUFFERSIZE
           "blpk"
           {| ns_subcommand := "d"; ns_in_file := "data.blp"; ns_out_file := None;
              ns_nchunks := None; ns_chunk_size := None; ns_typesize := 8;
              ns_clevel := 7; ns_shuffle := true; ns_force := true;
              ns_no_check_extension := false; ns_verbose := false; ns_debug := false |}
           fs1)
    = inl fs2 /\
    fs2 "data"%string = Some (repeat x61 (Z.to_nat (2 ^ 20))).
Proof.
  destruct (main_roundtrip (fun s : string => if String.eqb s "1"%string then Some (Fin (Qmake 1 1)) else None)
           (fun _ => EmptyString) store_compress store_decompress BLOSC_MAX_BUFFERSIZE
           ltac:(unfold BLOSC_MAX_BUFFERSIZE; lia)
           (fun b a _ => store_decompress_compress b a)
           (fun b a Hb => store_compress_ctbytes b a
                            ltac:(unfold BLOSC_MAX_BUFFERSIZE in Hb; lia))
           eq_refl "blpk"
           {| ns_subcommand := "c"; ns_in_file := "data"; ns_out_file := None;
              ns_nchunks := None; ns_chunk_size := None; ns_typesize := 8;
              ns_clevel := 7; ns_shuffle := true; ns_force := false;
              ns_no_check_extension := false; ns_verbose := false; ns_debug := false |}
           {| ns_subcommand := "d"; ns_in_file := "data.blp"; ns_out_file := None;
              ns_nchunks := None; ns_chunk_size := None; ns_typesize := 8;
              ns_clevel := 7; ns_shuffle := true; ns_force := true;
              ns_no_check_extension := false; ns_verbose := false; ns_debug := false |}
           (fun p : string => if String.eqb p "data"%string
                                then Some (repeat x61 (Z.to_nat (2 ^ 20))) else None)
           (repeat x61 (Z.to_nat (2 ^ 20)))
           eq_refl eq_refl eq_refl eq_refl eq_refl eq_refl
           ltac:(rewrite repeat_length, Z2Nat.id, MAX_CHUNKS_eq; lia)
           eq_refl eq_refl eq_refl eq_refl)
    as (fs1 & H1 & _ & _ & H4).
  destruct (H4 eq_refl) as (fs2 & H5 & H6).
  exists fs1, fs2. split; [exact H1 | split; [exact H5 | exact H6]].
Defined.
